(** * Banner.ts: the drag controller of a banner image

    A shallow embedding of [src/Banner.ts].  The handlers
    [handleDragStart], [handleDragMove] and [handleDragEnd] mutate a shared
    [IDragData] record and the [style.objectPosition] string of the image;
    here they are functions from the state before to the state after,
    together with the way the handler completed (normally, or by throwing).
    [getBannerElements] gives the image its first position and attaches
    the handlers; [parseSource] resolves the source of the image through
    three methods of the plugin, taken as a record of functions.

    Strings are sequences of bytes that hold the text in UTF-8; every
    string the program builds is ASCII.

    JavaScript numbers are IEEE 754 binary64 values.  They are modelled by
    [spec_float] with the operations of [SpecFloat] at precision 53 and
    maximal exponent 1024, so every arithmetic step below rounds exactly as
    the program's does. *)

From Stdlib Require Import ZArith Bool List String Ascii Lia.
From Stdlib Require Import Floats.SpecFloat.
From Stdlib Require DecimalString.
Import ListNotations.

Local Open Scope string_scope.
Local Open Scope Z_scope.

(** ** JavaScript numbers *)

Module JS.

Definition number := spec_float.

Definition prec : Z := 53.
Definition emax : Z := 1024.

Definition NaN : number := S754_nan.
Definition Infinity : number := S754_infinity false.

Definition add : number -> number -> number := SFadd prec emax.
Definition sub : number -> number -> number := SFsub prec emax.
Definition mul : number -> number -> number := SFmul prec emax.
Definition div : number -> number -> number := SFdiv prec emax.

(** [a < b], [a <= b], [a >= b] and [a === b] on numbers: false as soon
    as an operand is NaN. *)
Definition lt (a b : number) : bool := SFltb a b.
Definition le (a b : number) : bool := SFleb a b.
Definition ge (a b : number) : bool := SFleb b a.
Definition strict_eq (a b : number) : bool := SFeqb a b.

(** A number is well formed when it is a binary64 value: its mantissa is
    canonical for its exponent. *)
Definition well_formed (x : number) : bool := valid_binary prec emax x.

(** The number of an integer (exact below 2^53, rounded to nearest even
    above). *)
Definition of_Z (z : Z) : number := binary_normalize prec emax z 0 false.

(** The number nearest to [±D * 10^E], ties to even: the value of a
    decimal literal, in the source text or in a string. *)
Definition of_decimal (neg : bool) (D : Z) (E : Z) : number :=
  match D with
  | Z0 => S754_zero neg
  | Zpos d =>
      if 0 <=? E
      then binary_normalize prec emax (cond_Zopp neg (Zpos d * 10 ^ E)) 0 neg
      else div (S754_finite neg d 0)
               (S754_finite false (Z.to_pos (10 ^ (- E))) 0)
  | Zneg _ => S754_nan
  end.

(** [Math.round]: the integer nearest to [x], halves going up; a zero
    result keeps the sign of [x]. *)
Definition Math_round (x : number) : number :=
  match x with
  | S754_finite s m e =>
      let k := if 0 <=? e
               then cond_Zopp s (Zpos m) * 2 ^ e
               else Z.shiftr (2 * cond_Zopp s (Zpos m) + 2 ^ (- e)) (1 - e) in
      binary_normalize prec emax k 0 s
  | _ => x
  end.

(** *** [Number::toString] (radix 10) *)

(** Does [num / den < 10^n] hold?  ([num], [den] positive.) *)
Definition below_pow10 (num den n : Z) : bool :=
  if 0 <=? n then num <? den * 10 ^ n else num * 10 ^ (- n) <? den.

(** The least [n], from [n] on, with [num / den < 10^n].  The search
    starts just below the estimate [(b - 1) * log10 2] for a value with
    [b] binary digits, so a few steps reach it. *)
Fixpoint decimal_exponent (fuel : nat) (num den n : Z) : Z :=
  match fuel with
  | O => n
  | S fuel' =>
      if below_pow10 num den n then n
      else decimal_exponent fuel' num den (n + 1)
  end.

(** [floor (num / den / 10^g)] and whether twice the remainder is below,
    at, or above the divisor. *)
Definition scaled_floor (num den g : Z) : Z * comparison :=
  let '(a, b) := if 0 <=? g then (num, den * 10 ^ g)
                 else (num * 10 ^ (- g), den) in
  (a / b, (2 * (a mod b)) ?= b).

(** The digits [s] (with [k] digits) and the exponent [n] of step 5 of
    [Number::toString]: [k] is the least number of digits for which some
    [s * 10^(n-k)] reads back as [x]; among two such [s] the closer to
    [x] is taken, the even one on a tie. *)
Fixpoint shortest_digits (fuel : nat) (x : number) (num den n0 k : Z)
  : Z * Z * Z :=
  let g := n0 - k in
  let '(lo, side) := scaled_floor num den g in
  let hi := lo + 1 in
  let ok_lo := strict_eq (of_decimal false lo g) x in
  let ok_hi := strict_eq (of_decimal false hi g) x in
  let pick s := if s =? 10 ^ k then (10 ^ (k - 1), n0 + 1, k) else (s, n0, k) in
  match fuel with
  | O => pick lo
  | S fuel' =>
      match ok_lo, ok_hi with
      | true, true =>
          match side with
          | Lt => pick lo
          | Gt => pick hi
          | Eq => if Z.even lo then pick lo else pick hi
          end
      | true, false => pick lo
      | false, true => pick hi
      | false, false => shortest_digits fuel' x num den n0 (k + 1)
      end
  end.

Definition string_of_Z (z : Z) : string :=
  DecimalString.NilZero.string_of_uint (N.to_uint (Z.to_N z)).

Fixpoint zeros (n : nat) : string :=
  match n with
  | O => EmptyString
  | S n' => String "0"%char (zeros n')
  end.

(** Steps 6 to 10 of [Number::toString]: the layout of the digits. *)
Definition layout (s n k : Z) : string :=
  let ds := string_of_Z s in
  if (k <=? n) && (n <=? 21) then
    ds ++ zeros (Z.to_nat (n - k))
  else if (0 <? n) && (n <=? 21) then
    substring 0 (Z.to_nat n) ds ++ "." ++
    substring (Z.to_nat n) (Z.to_nat (k - n)) ds
  else if (-6 <? n) && (n <=? 0) then
    "0." ++ zeros (Z.to_nat (- n)) ++ ds
  else
    let ex := n - 1 in
    let exs := (if ex <? 0 then "-" else "+") ++ string_of_Z (Z.abs ex) in
    if k =? 1 then ds ++ "e" ++ exs
    else substring 0 1 ds ++ "." ++ substring 1 (Z.to_nat (k - 1)) ds
         ++ "e" ++ exs.

Definition toString_pos (m : positive) (e : Z) : string :=
  let num := if 0 <=? e then Zpos m * 2 ^ e else Zpos m in
  let den := if 0 <=? e then 1 else 2 ^ (- e) in
  let b := Zdigits2 (Zpos m) + e in
  let n0 := decimal_exponent 8 num den ((b - 1) * 30103 / 100000 - 1) in
  let '(s, n, k) := shortest_digits 17 (S754_finite false m e) num den n0 1 in
  layout s n k.

Definition toString (x : number) : string :=
  match x with
  | S754_nan => "NaN"
  | S754_zero _ => "0"
  | S754_infinity false => "Infinity"
  | S754_infinity true => "-Infinity"
  | S754_finite false m e => toString_pos m e
  | S754_finite true m e => "-" ++ toString_pos m e
  end.

(** *** [parseFloat] *)

Definition is_digit (c : ascii) : bool :=
  let n := nat_of_ascii c in (48 <=? n)%nat && (n <=? 57)%nat.

(** The white space and line terminators that [parseFloat] skips: those
    of one byte, U+00A0 in two bytes, and in three bytes U+1680, U+2000 to
    U+200A, U+2028, U+2029, U+202F, U+205F, U+3000 and U+FEFF. *)
Definition is_space (c : ascii) : bool :=
  let n := nat_of_ascii c in
  ((9 <=? n)%nat && (n <=? 13)%nat) || (n =? 32)%nat.

Definition is_space2 (c1 c2 : ascii) : bool :=
  ((nat_of_ascii c1 =? 194) && (nat_of_ascii c2 =? 160))%nat.

Definition is_space3 (c1 c2 c3 : ascii) : bool :=
  let n1 := nat_of_ascii c1 in
  let n2 := nat_of_ascii c2 in
  let n3 := nat_of_ascii c3 in
  ((n1 =? 225) && (n2 =? 154) && (n3 =? 128)
   || (n1 =? 226) && (n2 =? 128)
      && ((128 <=? n3) && (n3 <=? 138)
          || (n3 =? 168) || (n3 =? 169) || (n3 =? 175))
   || (n1 =? 226) && (n2 =? 129) && (n3 =? 159)
   || (n1 =? 227) && (n2 =? 128) && (n3 =? 128)
   || (n1 =? 239) && (n2 =? 187) && (n3 =? 191))%nat.

Fixpoint skip_spaces (s : string) : string :=
  match s with
  | String c1 s1 =>
      if is_space c1 then skip_spaces s1
      else
        match s1 with
        | String c2 s2 =>
            if is_space2 c1 c2 then skip_spaces s2
            else
              match s2 with
              | String c3 s3 =>
                  if is_space3 c1 c2 c3 then skip_spaces s3 else s
              | EmptyString => s
              end
        | EmptyString => s
        end
  | EmptyString => s
  end.

(** The longest run of decimal digits at the head of [s]: its value so
    far, its length, and the rest of [s]. *)
Fixpoint read_digits (s : string) (acc : Z) (len : Z) : Z * Z * string :=
  match s with
  | String c s' =>
      if is_digit c
      then read_digits s' (10 * acc + Z.of_nat (nat_of_ascii c - 48)) (len + 1)
      else (acc, len, s)
  | EmptyString => (acc, len, s)
  end.

Definition read_sign (s : string) : bool * string :=
  match s with
  | String "-"%char s' => (true, s')
  | String "+"%char s' => (false, s')
  | _ => (false, s)
  end.

(** The exponent part [e±ddd], when one is there in full. *)
Definition read_exponent (s : string) : Z :=
  match s with
  | String c s' =>
      if (Ascii.eqb c "e"%char || Ascii.eqb c "E"%char)%bool then
        let '(neg, s'') := read_sign s' in
        let '(v, len, _) := read_digits s'' 0 0 in
        if len =? 0 then 0 else cond_Zopp neg v
      else 0
  | EmptyString => 0
  end.

Definition parseFloat (str : string) : number :=
  let '(neg, s) := read_sign (skip_spaces str) in
  if prefix "Infinity" s then S754_infinity neg
  else
    let '(ip, ilen, s1) := read_digits s 0 0 in
    let '(D, flen, s2) :=
      match s1 with
      | String "."%char s1' => read_digits s1' ip 0
      | _ => (ip, 0, s1)
      end in
    if (ilen =? 0) && (flen =? 0) then S754_nan
    else of_decimal neg D (read_exponent s2 - flen).

(** *** [String.prototype.split] with a one-character separator *)

Fixpoint split_aux (sep : ascii) (s : string) (cur : string) : list string :=
  match s with
  | EmptyString => [cur]
  | String c s' =>
      if Ascii.eqb c sep then cur :: split_aux sep s' EmptyString
      else split_aux sep s' (cur ++ String c EmptyString)
  end.

Definition split (sep : ascii) (s : string) : list string :=
  split_aux sep s EmptyString.

(** *** Values that are not numbers

    [IDragData.x] starts as [null]; an array pattern binds [undefined] to a
    name beyond the end of the array. *)

Inductive value :=
| undefined
| null
| num (n : number).

Definition ToNumber (v : value) : number :=
  match v with
  | undefined => NaN
  | null => S754_zero false
  | num n => n
  end.

Definition ToString (v : value) : string :=
  match v with
  | undefined => "undefined"
  | null => "null"
  | num n => toString n
  end.

(** The element bound to position [i] of an array pattern. *)
Definition element (i : nat) (a : list number) : value :=
  match nth_error a i with
  | Some n => num n
  | None => undefined
  end.

(** *** [clamp] of lodash, with its [baseClamp] *)

Definition baseClamp (n lower upper : number) : number :=
  if strict_eq n n then
    let n := if le n upper then n else upper in
    if ge n lower then n else lower
  else n.

Definition clamp (n : value) (lower upper : number) : number :=
  let upper := if strict_eq upper upper then upper else S754_zero false in
  let lower := if strict_eq lower lower then lower else S754_zero false in
  baseClamp (ToNumber n) lower upper.

End JS.

Import JS.

(** ** The DOM values the handlers read *)

(** The client coordinates of a [MouseEvent] or of a [Touch]. *)
Record Point := { clientX : number; clientY : number }.

Record ModifierKeys := {
  altKey : bool;
  ctrlKey : bool;
  metaKey : bool;
  shiftKey : bool
}.

(** The dimensions of [e.target as HTMLImageElement] when the event is
    handled; the DOM gives them as integers. *)
Record HTMLImageElement := {
  clientHeight : Z;
  clientWidth : Z;
  naturalHeight : Z;
  naturalWidth : Z
}.

Inductive MTEvent :=
| MouseEvent (keys : ModifierKeys) (pos : Point) (target : HTMLImageElement)
| TouchEvent (keys : ModifierKeys) (targetTouches : list Point)
             (target : HTMLImageElement).

Definition keys_of (e : MTEvent) : ModifierKeys :=
  match e with
  | MouseEvent k _ _ => k
  | TouchEvent k _ _ => k
  end.

Definition target_of (e : MTEvent) : HTMLImageElement :=
  match e with
  | MouseEvent _ _ t => t
  | TouchEvent _ _ t => t
  end.

Definition instanceof_MouseEvent (e : MTEvent) : bool :=
  match e with
  | MouseEvent _ _ _ => true
  | TouchEvent _ _ _ => false
  end.

(** The policy of the settings: the strings ['alt'], ['ctrl'], ['meta'],
    ['shift'] that [isModPressed] tests, and ['none'] for its default
    branch. *)
Inductive BannerDragModOption := mod_none | mod_alt | mod_ctrl | mod_meta | mod_shift.

Module IDragData.
Record t := mk {
  x : value;
  y : value;
  isDragging : bool;
  vertical : bool
}.
End IDragData.

(** How a handler completes: it returns, or the destructuring of
    [undefined] in [getMousePos] throws. *)
Inductive completion := Normal | TypeError.

(** ** The handlers *)

(** [getMousePos]: [None] when [e.targetTouches[0]] is [undefined] and the
    pattern [{ clientX, clientY }] throws. *)
Definition getMousePos (e : MTEvent) : option Point :=
  match e with
  | MouseEvent _ pos _ => Some pos
  | TouchEvent _ targetTouches _ =>
      match targetTouches with
      | t :: _ => Some t
      | [] => None
      end
  end.

Definition isModPressed (e : MTEvent) (mod_ : BannerDragModOption) : bool :=
  match mod_ with
  | mod_alt => altKey (keys_of e)
  | mod_ctrl => ctrlKey (keys_of e)
  | mod_meta => metaKey (keys_of e)
  | mod_shift => shiftKey (keys_of e)
  | mod_none => true
  end.

Definition handleDragStart (e : MTEvent) (dragData : IDragData.t)
    (modRequired : BannerDragModOption) : completion * IDragData.t :=
  if negb (isModPressed e modRequired) && instanceof_MouseEvent e
  then (Normal, dragData)
  else
    match getMousePos e with
    | None => (TypeError, dragData)
    | Some p =>
        let t := target_of e in
        (Normal,
         {| IDragData.x := num (clientX p);
            IDragData.y := num (clientY p);
            IDragData.isDragging := true;
            IDragData.vertical :=
              ge (div (of_Z (naturalHeight t)) (of_Z (naturalWidth t)))
                 (div (of_Z (clientHeight t)) (of_Z (clientWidth t))) |})
    end.

(** The template literals that write [img.style.objectPosition]. *)
Definition objectPosition (px py : value) : string :=
  ToString px ++ "% " ++ ToString py ++ "%".

(** A value whose text, followed by [%], is a percentage of CSS: a finite
    number.  The other texts a template literal can hold, [NaN],
    [Infinity], [-Infinity], [undefined] and [null], are not numbers of
    CSS. *)
Definition css_percentage (v : value) : bool :=
  match v with
  | num (S754_zero _) | num (S754_finite _ _ _) => true
  | _ => false
  end.

(** The assignment [img.style.objectPosition = `${px}% ${py}%`].  The
    style declaration takes the text when it is a position, two
    percentages, and is read back as it was written; it drops a text that
    is not one and keeps the value it had, [current]. *)
Definition assign_objectPosition (current : string) (px py : value) : string :=
  if css_percentage px && css_percentage py
  then objectPosition px py
  else current.

(** [handleDragMove] on the drag data and on the value [style] of
    [img.style.objectPosition]. *)
Definition handleDragMove (e : MTEvent) (dragData : IDragData.t)
    (style : string) : completion * IDragData.t * string :=
  if negb (IDragData.isDragging dragData) then (Normal, dragData, style)
  else
    let img := target_of e in
    match getMousePos e with
    | None => (TypeError, dragData, style)
    | Some p =>
        let delta_x :=
          mul (div (sub (ToNumber (IDragData.x dragData)) (clientX p))
                   (of_Z (clientWidth img))) (of_Z 100) in
        let delta_y :=
          mul (div (sub (ToNumber (IDragData.y dragData)) (clientY p))
                   (of_Z (clientHeight img))) (of_Z 100) in
        let dragData' :=
          {| IDragData.x := num (clientX p);
             IDragData.y := num (clientY p);
             IDragData.isDragging := IDragData.isDragging dragData;
             IDragData.vertical := IDragData.vertical dragData |} in
        let parts := map parseFloat (split " " style) in
        let currentX := element 0 parts in
        let currentY := element 1 parts in
        if IDragData.vertical dragData then
          let newY := clamp (num (add (ToNumber currentY) delta_y))
                            (of_Z 0) (of_Z 100) in
          (Normal, dragData', assign_objectPosition style currentX (num newY))
        else
          let newX := clamp (num (add (ToNumber currentX) delta_x))
                            (of_Z 0) (of_Z 100) in
          (Normal, dragData', assign_objectPosition style (num newX) currentY)
    end.

(** The argument of [upsertBannerData]: an object with the field [x], or
    with the field [y]; [None] is a field the object does not have. *)
Record BannerPatch := {
  patch_x : option value;
  patch_y : option value
}.

Record UpsertCall := {
  call_path : string;
  call_patch : BannerPatch
}.

(** The map of [handleDragEnd]:
    [n => Math.round(parseFloat(n) * 1000) / 100000]. *)
Definition percentToNormalized (n : string) : number :=
  div (Math_round (mul (parseFloat n) (of_Z 1000))) (of_Z 100000).

(** [handleDragEnd]: the drag data after it, and the call of
    [plugin.metaManager.upsertBannerData] it makes, if any.  The call is
    made before the handler first suspends. *)
Definition handleDragEnd (style : string) (path : string)
    (dragData : IDragData.t) : IDragData.t * option UpsertCall :=
  if negb (IDragData.isDragging dragData) then (dragData, None)
  else
    let dragData' :=
      {| IDragData.x := IDragData.x dragData;
         IDragData.y := IDragData.y dragData;
         IDragData.isDragging := false;
         IDragData.vertical := IDragData.vertical dragData |} in
    let parts := map percentToNormalized (split " " style) in
    let x := element 0 parts in
    let y := element 1 parts in
    (dragData',
     Some {| call_path := path;
             call_patch :=
               if IDragData.vertical dragData
               then {| patch_x := None; patch_y := Some y |}
               else {| patch_x := Some x; patch_y := None |} |}).

(** ** The elements [getBannerElements] creates *)

Module IBannerMetadata.
(** [x] and [y] are [None] when the front matter does not give them. *)
Record t := mk {
  src : string;
  x : option number;
  y : option number;
  lock : bool
}.
End IBannerMetadata.

(** The literal [0.5]. *)
Definition one_half : number := of_decimal false 5 (-1).

Definition default_to (v : option number) (d : number) : number :=
  match v with
  | Some n => n
  | None => d
  end.

(** The image and the drag data as [getBannerElements] leaves them, and
    the calls of [upsertBannerData] made since, oldest first.  The image
    is new, so its style has no position when the first one is
    assigned. *)
Record Banner := {
  img_objectPosition : string;
  dragData : IDragData.t;
  upserts : list UpsertCall
}.

Definition getBannerElements (bannerData : IBannerMetadata.t) : Banner :=
  let x := default_to (IBannerMetadata.x bannerData) one_half in
  let y := default_to (IBannerMetadata.y bannerData) one_half in
  let clampedX := clamp (num x) (of_Z 0) (of_Z 1) in
  let clampedY := clamp (num y) (of_Z 0) (of_Z 1) in
  {| img_objectPosition :=
       assign_objectPosition ""
         (num (mul clampedX (of_Z 100)))
         (num (mul clampedY (of_Z 100)));
     dragData := IDragData.mk null null false true;
     upserts := [] |}.

(** ** Sequences of events

    The handlers run one at a time, each to its end; an exception thrown by
    one is reported by the event loop and the next event is handled on the
    state the handler left. *)

Inductive Input :=
| Start (e : MTEvent)
| Move (e : MTEvent)
| End.

Definition step (modRequired : BannerDragModOption) (path : string)
    (b : Banner) (i : Input) : Banner :=
  match i with
  | Start e =>
      let '(_, d) := handleDragStart e (dragData b) modRequired in
      {| img_objectPosition := img_objectPosition b;
         dragData := d;
         upserts := upserts b |}
  | Move e =>
      let '(_, d, style) :=
        handleDragMove e (dragData b) (img_objectPosition b) in
      {| img_objectPosition := style;
         dragData := d;
         upserts := upserts b |}
  | End =>
      let '(d, call) := handleDragEnd (img_objectPosition b) path (dragData b) in
      {| img_objectPosition := img_objectPosition b;
         dragData := d;
         upserts := upserts b ++ match call with
                                 | Some c => [c]
                                 | None => []
                                 end |}
  end.

Definition run (modRequired : BannerDragModOption) (path : string)
    (b : Banner) (inputs : list Input) : Banner :=
  fold_left (step modRequired path) inputs b.

(** A start is accepted when [handleDragStart] reaches its assignments:
    the modifier test lets the event through and the event has a pointer
    position. *)
Definition start_accepted (e : MTEvent) (modRequired : BannerDragModOption)
  : bool :=
  negb (negb (isModPressed e modRequired) && instanceof_MouseEvent e)
  && match getMousePos e with
     | Some _ => true
     | None => false
     end.

(** The test of [handleDragStart] on the dimensions of an image. *)
Definition locks_vertical (t : HTMLImageElement) : bool :=
  ge (div (of_Z (naturalHeight t)) (of_Z (naturalWidth t)))
     (div (of_Z (clientHeight t)) (of_Z (clientWidth t))).


(** ** The handlers [getBannerElements] attaches *)

Record BannersSettings := {
  bannerDragModifier : BannerDragModOption;
  allowMobileDrag : bool
}.

(** The events the attached handlers receive: the mouse and touch events
    on the image, and the releases on the parent of the content element. *)
Inductive DomEvent :=
| onmousedown (keys : ModifierKeys) (pos : Point) (target : HTMLImageElement)
| onmousemove (keys : ModifierKeys) (pos : Point) (target : HTMLImageElement)
| onmouseup
| ontouchstart (keys : ModifierKeys) (targetTouches : list Point)
               (target : HTMLImageElement)
| ontouchmove (keys : ModifierKeys) (targetTouches : list Point)
              (target : HTMLImageElement)
| ontouchend.

Definition is_touch (ev : DomEvent) : bool :=
  match ev with
  | ontouchstart _ _ _ | ontouchmove _ _ _ | ontouchend => true
  | _ => false
  end.

(** One event on the elements of a banner: the handler attached for it
    runs, if [getBannerElements] attached one. *)
Definition dispatch (settings : BannersSettings)
    (bannerData : IBannerMetadata.t) (filepath : string) (isEmbed : bool)
    (b : Banner) (ev : DomEvent) : Banner :=
  let canDrag := negb isEmbed && negb (IBannerMetadata.lock bannerData) in
  let handle := step (bannerDragModifier settings) filepath b in
  if canDrag then
    match ev with
    | onmousedown keys pos target => handle (Start (MouseEvent keys pos target))
    | onmousemove keys pos target => handle (Move (MouseEvent keys pos target))
    | onmouseup => handle End
    | ontouchstart keys touches target =>
        if allowMobileDrag settings
        then handle (Start (TouchEvent keys touches target))
        else b
    | ontouchmove keys touches target =>
        if allowMobileDrag settings
        then handle (Move (TouchEvent keys touches target))
        else b
    | ontouchend =>
        if allowMobileDrag settings then handle End else b
    end
  else b.

Definition fire (settings : BannersSettings)
    (bannerData : IBannerMetadata.t) (filepath : string) (isEmbed : bool)
    (b : Banner) (events : list DomEvent) : Banner :=
  fold_left (dispatch settings bannerData filepath isEmbed) events b.

(** ** [parseSource] *)

(** A file of the vault, known by its path. *)
Record TFile := { file_path : string }.

(** What [getAbstractFileByPath] finds: a file or a folder. *)
Inductive TAbstractFile :=
| AFile (f : TFile)
| AFolder (folder_path : string).

(** The three methods of the plugin that [parseSource] calls; [None] is
    their [null]. *)
Record BannersPlugin := {
  getFirstLinkpathDest : string -> string -> option TFile;
  getAbstractFileByPath : string -> option TAbstractFile;
  getResourcePath : TFile -> string
}.

(** The characters that [.] does not match: LF and CR, and U+2028 and
    U+2029, which are the bytes 226 128 168 and 226 128 169. *)
Definition is_line_terminator (c : ascii) : bool :=
  (Ascii.eqb c "010" || Ascii.eqb c "013")%bool.

Definition is_line_terminator3 (c1 c2 c3 : ascii) : bool :=
  ((nat_of_ascii c1 =? 226) && (nat_of_ascii c2 =? 128)
   && ((nat_of_ascii c3 =? 168) || (nat_of_ascii c3 =? 169)))%nat.

(** No line terminator starts at the head of [s]. *)
Definition no_terminator_at (s : string) : bool :=
  match s with
  | String c1 (String c2 (String c3 _)) =>
      negb (is_line_terminator c1) && negb (is_line_terminator3 c1 c2 c3)
  | String c1 _ => negb (is_line_terminator c1)
  | EmptyString => true
  end.

Fixpoint single_line (s : string) : bool :=
  match s with
  | EmptyString => true
  | String c s' => no_terminator_at s && single_line s'
  end.

(** The line terminators as strings, and what it is for a string to
    hold one: this is how the regular expression's dot is specified. *)
Definition LF : string := String "010" "".
Definition CR : string := String "013" "".
Definition LS : string :=
  String (ascii_of_nat 226) (String (ascii_of_nat 128)
    (String (ascii_of_nat 168) "")).
Definition PS : string :=
  String (ascii_of_nat 226) (String (ascii_of_nat 128)
    (String (ascii_of_nat 169) "")).

Definition line_terminators : list string := [LF; CR; LS; PS].

Definition has_line_terminator (s : string) : Prop :=
  exists a t b, In t line_terminators /\ s = a ++ t ++ b.

(** [src.slice(from, -back)] and [src.slice(from)], for [from] and [back]
    within the string. *)
Definition slice (from back : nat) (src : string) : string :=
  substring from (String.length src - from - back) src.

(** [/^\!\[\[.+\]\]$/.test(src)]: the string is ["![["], then one or more
    characters that are not line terminators, then ["]]"]. *)
Definition is_embed_link (src : string) : bool :=
  prefix "![[" src
  && (6 <=? String.length src)%nat
  && String.eqb (substring (String.length src - 2) 2 src) "]]"
  && single_line (slice 3 2 src).

Definition parseSource (plugin : BannersPlugin) (src filepath : string)
  : string :=
  if is_embed_link src then
    let link := slice 3 2 src in
    match getFirstLinkpathDest plugin link filepath with
    | Some file => getResourcePath plugin file
    | None => link
    end
  else
    let path := if prefix "/" src then slice 1 0 src else src in
    match getAbstractFileByPath plugin path with
    | Some (AFile file) => getResourcePath plugin file
    | _ => src
    end.

(** A call with one field only, made for the file [path]. *)
Definition single_axis_call (path : string) (c : UpsertCall) : Prop :=
  call_path c = path
  /\ ((exists v, call_patch c = {| patch_x := Some v; patch_y := None |})
      \/ (exists v, call_patch c = {| patch_x := None; patch_y := Some v |})).

(** The accepted starts among the inputs. *)
Definition accepted_starts (modRequired : BannerDragModOption)
    (inputs : list Input) : nat :=
  List.length (filter (fun i => match i with
                           | Start e => start_accepted e modRequired
                           | _ => false
                           end) inputs).

(** ** Numbers as real numbers *)

(** [between lo hi x]: the number [x] is finite and the real number it
    denotes lies between the integers [lo] and [hi]. *)
Definition between (lo hi : Z) (x : number) : bool :=
  match x with
  | S754_zero _ => (lo <=? 0) && (0 <=? hi)
  | S754_finite s m e =>
      let v := cond_Zopp s (Zpos m) in
      if 0 <=? e then (lo <=? v * 2 ^ e) && (v * 2 ^ e <=? hi)
      else (lo * 2 ^ (- e) <=? v) && (v <=? hi * 2 ^ (- e))
  | _ => false
  end.

(** [at_most B x]: [x] is [+0], or positive and at most the integer [B],
    with a mantissa in units that divide 1. *)
Definition at_most (B : Z) (x : number) : Prop :=
  x = S754_zero false
  \/ exists m e, x = S754_finite false m e /\ e <= 0 /\ Zpos m <= B * 2 ^ (- e).

(** What [j] steps of [shr_1] leave of the quotient [a / b]: its integer
    part, and no round or sticky bit unless something was lost. *)
Definition shifted (a b : Z) (j : Z) (r : shr_record) : Prop :=
  0 <= j /\ shr_m r = a / (b * 2 ^ j)
  /\ (orb (shr_r r) (shr_s r) = true -> a mod (b * 2 ^ j) <> 0).

(** A location says "exact" only of a quotient without remainder. *)
Definition located (a b : Z) (l : location) : Prop :=
  l <> loc_Exact -> a mod b <> 0.

(** ** Events and states of the examples *)

Definition no_keys : ModifierKeys :=
  {| altKey := false; ctrlKey := false; metaKey := false; shiftKey := false |}.

Definition point (px py : Z) : Point :=
  {| clientX := of_Z px; clientY := of_Z py |}.

(** An image rendered [cw] by [ch] pixels, of natural size [nw] by [nh]. *)
Definition image (cw ch nw nh : Z) : HTMLImageElement :=
  {| clientHeight := ch; clientWidth := cw;
     naturalHeight := nh; naturalWidth := nw |}.

(** A drag in progress on the vertical axis, and the banner it belongs
    to, at "50% 50%". *)
Definition dragging_from (px py : Z) (vertical : bool) : IDragData.t :=
  {| IDragData.x := num (of_Z px);
     IDragData.y := num (of_Z py);
     IDragData.isDragging := true;
     IDragData.vertical := vertical |}.

Definition centered : Banner :=
  {| img_objectPosition := "50% 50%";
     dragData := IDragData.mk null null false true;
     upserts := [] |}.





Definition is_num (v : value) : bool :=
  match v with
  | num _ => true
  | _ => false
  end.



(** The drag data an accepted start leaves, for the pointer position [p]
    on the image [t]. *)
Definition started (p : Point) (t : HTMLImageElement) : IDragData.t :=
  {| IDragData.x := num (clientX p);
     IDragData.y := num (clientY p);
     IDragData.isDragging := true;
     IDragData.vertical := locks_vertical t |}.

(** The last pointer position among the events, [p] if none has one. *)
Definition last_pointer (p : Point) (events : list MTEvent) : Point :=
  fold_left (fun q e => match getMousePos e with
                        | Some q' => q'
                        | None => q
                        end) events p.

(** ** The initial position, in the words of the specification *)



(** The sum a move clamps is written when it is a number: itself if it is
    from 0 to 100, else the nearer of the two. *)
Definition spec_clamp_percent (sum : number) : number :=
  if lt sum (of_Z 0) then of_Z 0
  else if lt (of_Z 100) sum then of_Z 100
  else sum.

(** ** Rounding: bounds on the arithmetic of [handleDragEnd] *)


Lemma digits2_pos_bounds (p : positive) :
  2 ^ (Zpos (digits2_pos p) - 1) <= Zpos p < 2 ^ Zpos (digits2_pos p).
Proof.
  induction p as [p IH|p IH|]; cbn [digits2_pos].
  - rewrite Pos2Z.inj_succ.
    replace (Z.succ (Zpos (digits2_pos p)) - 1) with (Z.succ (Zpos (digits2_pos p) - 1)) by lia.
    rewrite !Z.pow_succ_r by lia. lia.
  - rewrite Pos2Z.inj_succ.
    replace (Z.succ (Zpos (digits2_pos p)) - 1) with (Z.succ (Zpos (digits2_pos p) - 1)) by lia.
    rewrite !Z.pow_succ_r by lia. lia.
  - simpl. lia.
Qed.

Lemma shr_1_spec (r : shr_record) :
  0 <= shr_m r ->
  shr_m (shr_1 r) = shr_m r / 2
  /\ shr_r (shr_1 r) = Z.odd (shr_m r)
  /\ shr_s (shr_1 r) = orb (shr_r r) (shr_s r).
Proof.
  destruct r as [m rr ss]. cbn [shr_m shr_r shr_s]. intros Hm.
  destruct m as [|[q|q|]|q]; cbn [shr_1 shr_m shr_r shr_s].
  - auto.
  - split; [|auto]. rewrite Pos2Z.inj_xI. apply (Z.div_unique _ 2 _ 1); lia.
  - split; [|auto]. rewrite Pos2Z.inj_xO. apply (Z.div_unique _ 2 _ 0); lia.
  - auto.
  - lia.
Qed.

Lemma shr_1_shifted a b j r :
  0 <= a -> 0 < b -> shifted a b j r -> shifted a b (j + 1) (shr_1 r).
Proof.
  intros Ha Hb (Hj & Hm & Hrs).
  assert (Hpos : 0 < 2 ^ j) by (apply Z.pow_pos_nonneg; lia).
  assert (Hpow : b * 2 ^ (j + 1) = (b * 2 ^ j) * 2)
    by (rewrite Z.pow_add_r by lia; change (2 ^ 1) with 2; ring).
  set (c := b * 2 ^ j) in *.
  assert (Hc : 0 < c) by (unfold c; lia).
  assert (Hm0 : 0 <= shr_m r) by (rewrite Hm; apply Z.div_pos; lia).
  destruct (shr_1_spec r Hm0) as (H1 & H2 & H3).
  split; [lia|]. split.
  - rewrite H1, Hm, Hpow. rewrite Z.div_div by lia. reflexivity.
  - rewrite H2, H3, Hpow. intros Hor Hmod.
    apply Z.mod_divide in Hmod; [|lia]. destruct Hmod as [t Ht].
    assert (HMj : a / c = 2 * t).
    { rewrite Ht. replace (t * (c * 2)) with ((2 * t) * c) by ring.
      apply Z.div_mul. lia. }
    assert (HMm : a mod c = 0).
    { rewrite Ht. replace (t * (c * 2)) with ((2 * t) * c) by ring.
      apply Z.mod_mul. lia. }
    apply orb_true_iff in Hor as [Hodd | Hprev].
    + rewrite Hm, HMj in Hodd. rewrite Z.odd_mul in Hodd. discriminate.
    + exact (Hrs Hprev HMm).
Qed.

Lemma iter_shr_1_shifted a b : 0 <= a -> 0 < b -> forall p j r,
  shifted a b j r -> shifted a b (j + Zpos p) (iter_pos shr_1 p r).
Proof.
  intros Ha Hb. induction p as [p IH|p IH|]; intros j r H; cbn [iter_pos].
  - replace (j + Zpos p~1) with (((j + 1) + Zpos p) + Zpos p) by lia.
    apply IH, IH, shr_1_shifted; assumption.
  - replace (j + Zpos p~0) with ((j + Zpos p) + Zpos p) by lia.
    apply IH, IH; assumption.
  - apply shr_1_shifted; assumption.
Qed.

Lemma shifted_0 a b l :
  located a b l -> shifted a b 0 (shr_record_of_loc (a / b) l).
Proof.
  intros Hl. unfold shifted. rewrite Z.pow_0_r, Z.mul_1_r.
  split; [lia|]. split.
  - destruct l as [|[ | | ]]; reflexivity.
  - intros Hor. apply Hl. intros ->. discriminate.
Qed.

Lemma fexp_le_0 d : d <= 53 -> fexp prec emax d <= 0.
Proof. unfold fexp, emin, prec, emax. lia. Qed.

(** A mantissa below [B * 2^(-E)] has at most [53 - E] digits when
    [B < 2^53]. *)
Lemma digits_le B M E :
  0 < B < 2 ^ 53 -> E <= 0 -> 0 <= M <= B * 2 ^ (- E) ->
  Zdigits2 M + E <= 53.
Proof.
  intros HB HE HM. destruct M as [|M|M]; [cbn; lia| |lia].
  cbn [Zdigits2].
  pose proof (digits2_pos_bounds M) as [Hlo _].
  assert (Hlt : 2 ^ (Zpos (digits2_pos M) - 1) < 2 ^ (53 - E)).
  { eapply Z.le_lt_trans; [exact Hlo|].
    eapply Z.le_lt_trans; [exact (proj2 HM)|].
    replace (53 - E) with (53 + - E) by lia.
    rewrite Z.pow_add_r by lia.
    apply Z.mul_lt_mono_pos_r; [apply Z.pow_pos_nonneg; lia | lia]. }
  apply Z.pow_lt_mono_r_iff in Hlt; lia.
Qed.

Lemma round_nearest_even_ge m l : m <= round_nearest_even m l.
Proof.
  destruct l as [|[ | | ]]; cbn [round_nearest_even];
    try destruct (Z.even m); lia.
Qed.

Lemma round_nearest_even_le m l : round_nearest_even m l <= m + 1.
Proof.
  destruct l as [|[ | | ]]; cbn [round_nearest_even];
    try destruct (Z.even m); lia.
Qed.

Lemma round_nearest_even_exact m r :
  orb (shr_r r) (shr_s r) = false ->
  round_nearest_even m (loc_of_shr_record r) = m.
Proof.
  destruct r as [m' [|] [|]]; cbn; try discriminate. reflexivity.
Qed.

(** One [shr_fexp] on the quotient [a / b], followed by the rounding to
    nearest even, stays below an integer bound [B] that is a multiple of
    the new unit. *)
Lemma shr_fexp_round_le B a b l E :
  0 < B < 2 ^ 53 -> E <= 0 -> 0 < b -> 0 <= a <= b * (B * 2 ^ (- E)) ->
  located a b l ->
  let '(mrs, e') := shr_fexp prec emax (a / b) E l in
  e' <= 0
  /\ 0 <= round_nearest_even (shr_m mrs) (loc_of_shr_record mrs)
       <= B * 2 ^ (- e').
Proof.
  intros HB HE Hb Ha Hl.
  assert (HpE : 0 < 2 ^ (- E)) by (apply Z.pow_pos_nonneg; lia).
  assert (Hq : 0 <= a / b <= B * 2 ^ (- E)).
  { split; [apply Z.div_pos; lia|]. apply Z.div_le_upper_bound; lia. }
  unfold shr_fexp, shr.
  set (n := fexp prec emax (Zdigits2 (a / b) + E) - E).
  assert (Hn : E + n <= 0).
  { unfold n. pose proof (digits_le B (a / b) E HB HE Hq).
    pose proof (fexp_le_0 (Zdigits2 (a / b) + E)). lia. }
  pose proof (shifted_0 a b l Hl) as H0.
  assert (Hgen : forall j r e', shifted a b j r -> e' = E + j -> e' <= 0 ->
            e' <= 0 /\ 0 <= round_nearest_even (shr_m r) (loc_of_shr_record r)
                        <= B * 2 ^ (- e')).
  { intros j r e' (Hj & Hm & Hrs) -> He'. split; [exact He'|].
    assert (Hpj : 0 < 2 ^ j) by (apply Z.pow_pos_nonneg; lia).
    assert (Hsplit : 2 ^ (- E) = 2 ^ (- (E + j)) * 2 ^ j).
    { rewrite <- Z.pow_add_r by lia. f_equal. lia. }
    set (C := B * 2 ^ (- (E + j))).
    assert (HaC : a <= (b * 2 ^ j) * C).
    { unfold C. rewrite Hsplit in Ha. nia. }
    assert (Hm0 : 0 <= shr_m r) by (rewrite Hm; apply Z.div_pos; nia).
    assert (HmC : shr_m r <= C).
    { rewrite Hm. apply Z.div_le_upper_bound; nia. }
    pose proof (round_nearest_even_ge (shr_m r) (loc_of_shr_record r)).
    pose proof (round_nearest_even_le (shr_m r) (loc_of_shr_record r)).
    split; [lia|].
    destruct (orb (shr_r r) (shr_s r)) eqn:Hor.
    - specialize (Hrs eq_refl).
      assert (a < (b * 2 ^ j) * C).
      { destruct (Z.eq_dec a ((b * 2 ^ j) * C)) as [Heq|]; [|lia].
        exfalso. apply Hrs. rewrite Heq, Z.mul_comm. apply Z.mod_mul. nia. }
      assert (a / (b * 2 ^ j) < C) by (apply Z.div_lt_upper_bound; nia).
      lia.
    - rewrite round_nearest_even_exact by exact Hor. lia. }
  destruct n as [|p|p] eqn:Hp.
  - apply (Hgen 0 _ E H0); lia.
  - apply (Hgen (0 + Zpos p)); [|lia|lia].
    apply iter_shr_1_shifted; [lia|lia|exact H0].
  - apply (Hgen 0 _ E H0); lia.
Qed.

Lemma shr_fexp_nonneg m e :
  0 <= m -> 0 <= shr_m (fst (shr_fexp prec emax m e loc_Exact)).
Proof.
  intros Hm. unfold shr_fexp, shr.
  destruct (fexp prec emax (Zdigits2 m + e) - e) as [|p|p]; cbn [fst];
    try (cbn; lia).
  assert (Hl1 : located m 1 loc_Exact) by (intros H; congruence).
  pose proof (shifted_0 m 1 loc_Exact Hl1) as Hx.
  rewrite Z.div_1_r in Hx.
  pose proof (iter_shr_1_shifted m 1 Hm ltac:(lia) p 0 _ Hx) as (_ & Hq & _).
  rewrite Hq. apply Z.div_pos; [lia|].
  assert (0 < 2 ^ (0 + Zpos p)) by (apply Z.pow_pos_nonneg; lia). lia.
Qed.

(** The rounding of [(a / b) * 2^E], when it is at most [B], is a number
    at most [B]. *)
Lemma binary_round_aux_le B a b l E :
  0 < B < 2 ^ 53 -> E <= 0 -> 0 < b -> 0 <= a <= b * (B * 2 ^ (- E)) ->
  located a b l ->
  at_most B (binary_round_aux prec emax false (a / b) E l).
Proof.
  intros HB HE Hb Ha Hl. unfold binary_round_aux.
  pose proof (shr_fexp_round_le B a b l E HB HE Hb Ha Hl) as H1.
  destruct (shr_fexp prec emax (a / b) E l) as [mrs' e'].
  destruct H1 as (He' & Hm'').
  set (m'' := round_nearest_even (shr_m mrs') (loc_of_shr_record mrs')) in *.
  assert (Hl1 : located m'' 1 loc_Exact) by (intros H; congruence).
  pose proof (shr_fexp_round_le B m'' 1 loc_Exact e' HB He' ltac:(lia)
                ltac:(lia) Hl1) as H2.
  rewrite Z.div_1_r in H2.
  destruct (shr_fexp prec emax m'' e' loc_Exact) as [mrs'' e''] eqn:Hs.
  destruct H2 as (He'' & Hlo & Hhi).
  pose proof (round_nearest_even_ge (shr_m mrs'') (loc_of_shr_record mrs'')) as Hge.
  assert (Hnn : 0 <= shr_m mrs'').
  { pose proof (shr_fexp_nonneg m'' e' ltac:(lia)) as Hx.
    rewrite Hs in Hx. exact Hx. }
  destruct (shr_m mrs'') as [|m|m]; [left; reflexivity| |lia].
  right. exists m, e''.
  replace (e'' <=? emax - prec) with true
    by (symmetry; apply Z.leb_le; unfold emax, prec; lia).
  repeat split; [exact He''|lia].
Qed.




(** [Math.round] of a number between 0 and [B] is the number of an
    integer between 0 and [B]. *)
Lemma Math_round_le B m e :
  0 <= B -> e <= 0 -> Zpos m <= B * 2 ^ (- e) ->
  exists k, 0 <= k <= B /\ Math_round (S754_finite false m e) = of_Z k.
Proof.
  intros HB He Hm. unfold Math_round, of_Z. cbn [cond_Zopp].
  destruct (0 <=? e) eqn:H0.
  - apply Z.leb_le in H0. assert (e = 0) by lia. subst e.
    exists (Zpos m * 2 ^ 0). change (2 ^ (- 0)) with 1 in Hm.
    split; [|reflexivity]. rewrite Z.pow_0_r. lia.
  - apply Z.leb_gt in H0.
    exists (Z.shiftr (2 * Zpos m + 2 ^ (- e)) (1 - e)). split; [|reflexivity].
    rewrite Z.shiftr_div_pow2 by lia.
    assert (Hp : 0 < 2 ^ (- e)) by (apply Z.pow_pos_nonneg; lia).
    assert (Hs : 2 ^ (1 - e) = 2 * 2 ^ (- e)).
    { replace (1 - e) with (Z.succ (- e)) by lia. apply Z.pow_succ_r. lia. }
    rewrite Hs. split.
    + apply Z.div_pos; lia.
    + assert (Hlt : (2 * Zpos m + 2 ^ (- e)) / (2 * 2 ^ (- e)) < B + 1).
      { apply Z.div_lt_upper_bound; nia. }
      lia.
Qed.

Lemma of_Z_1000 : of_Z 1000 = S754_finite false 8796093022208000 (-43).
Proof. reflexivity. Qed.

(** The product by [1000] of a number between 0 and 100 is between 0 and
    100000. *)
Lemma times_1000_le m e :
  e <= 43 -> Zpos m * 2 ^ 43 <= 100 * 2 ^ (43 - e) ->
  at_most 100000 (mul (S754_finite false m e) (of_Z 1000)).
Proof.
  intros He Hm. rewrite of_Z_1000. unfold mul, SFmul. cbn [xorb].
  rewrite <- (Z.div_1_r (Zpos (m * 8796093022208000))).
  apply binary_round_aux_le.
  - change (2 ^ 53) with 9007199254740992. lia.
  - lia.
  - lia.
  - split; [lia|].
    rewrite Pos2Z.inj_mul.
    replace (- (e + -43)) with (43 - e) by lia.
    change (2 ^ 43) with 8796093022208 in Hm. lia.
  - intros H; congruence.
Qed.



Lemma at_most_between B x : 0 <= B -> at_most B x -> between 0 B x = true.
Proof.
  intros HB [->|(m & e & -> & He & Hm)].
  - cbn [between]. apply andb_true_iff. split; [reflexivity|apply Z.leb_le; lia].
  - unfold between. cbn [cond_Zopp].
    destruct (0 <=? e) eqn:H0.
    + apply Z.leb_le in H0. assert (e = 0) by lia. subst e.
      change (2 ^ (- 0)) with 1 in Hm. rewrite Z.pow_0_r.
      apply andb_true_iff. split; apply Z.leb_le; lia.
    + apply andb_true_iff. split; apply Z.leb_le; lia.
Qed.

(** ** Rounding: how far the rounded value is from the exact one *)













(** ** What an accepted start does *)

Lemma handleDragStart_accepted e d modRequired p :
  start_accepted e modRequired = true ->
  getMousePos e = Some p ->
  handleDragStart e d modRequired =
    (Normal,
     {| IDragData.x := num (clientX p);
        IDragData.y := num (clientY p);
        IDragData.isDragging := true;
        IDragData.vertical := locks_vertical (target_of e) |}).
Proof.
  unfold start_accepted, handleDragStart. intros Hacc Hpos.
  apply andb_true_iff in Hacc as [Hgate _].
  apply negb_true_iff in Hgate. rewrite Hgate, Hpos. reflexivity.
Qed.

Lemma handleDragMove_vertical e d style :
  IDragData.vertical (snd (fst (handleDragMove e d style)))
  = IDragData.vertical d.
Proof.
  unfold handleDragMove.
  destruct (IDragData.isDragging d); simpl; [|reflexivity].
  destruct (getMousePos e); simpl; [|reflexivity].
  destruct (IDragData.vertical d); reflexivity.
Qed.

Lemma handleDragMove_isDragging e d style :
  IDragData.isDragging (snd (fst (handleDragMove e d style)))
  = IDragData.isDragging d.
Proof.
  unfold handleDragMove.
  destruct (IDragData.isDragging d) eqn:Hd; simpl; [|exact Hd].
  destruct (getMousePos e); simpl; [|exact Hd].
  destruct (IDragData.vertical d); reflexivity.
Qed.

Lemma step_Move_dragData modRequired path b e :
  dragData (step modRequired path b (Move e))
  = snd (fst (handleDragMove e (dragData b) (img_objectPosition b))).
Proof.
  simpl. destruct (handleDragMove _ _ _) as [[c d] st]. reflexivity.
Qed.

Lemma step_Move_upserts modRequired path b e :
  upserts (step modRequired path b (Move e)) = upserts b.
Proof.
  simpl. destruct (handleDragMove _ _ _) as [[c d] st]. reflexivity.
Qed.

Lemma run_moves_frame modRequired path es : forall b,
  let b' := run modRequired path b (map Move es) in
  IDragData.vertical (dragData b') = IDragData.vertical (dragData b)
  /\ IDragData.isDragging (dragData b') = IDragData.isDragging (dragData b)
  /\ upserts b' = upserts b.
Proof.
  induction es as [|e es IH]; intros b; unfold run; cbn [map fold_left].
  - auto.
  - specialize (IH (step modRequired path b (Move e))).
    cbv zeta in IH. unfold run in IH. destruct IH as (Hv & Hd & Hu).
    rewrite Hv, Hd, Hu.
    rewrite step_Move_dragData, step_Move_upserts.
    rewrite handleDragMove_vertical, handleDragMove_isDragging. auto.
Qed.

(** ** The axis lock *)



(** ** Runs *)

Lemma run_app modRequired path b i1 i2 :
  run modRequired path b (i1 ++ i2)
  = run modRequired path (run modRequired path b i1) i2.
Proof. unfold run. apply fold_left_app. Qed.

Lemma handleDragMove_inactive e d style :
  IDragData.isDragging d = false ->
  handleDragMove e d style = (Normal, d, style).
Proof. intros H. unfold handleDragMove. rewrite H. reflexivity. Qed.

Lemma handleDragEnd_inactive style path d :
  IDragData.isDragging d = false ->
  handleDragEnd style path d = (d, None).
Proof. intros H. unfold handleDragEnd. rewrite H. reflexivity. Qed.

Lemma handleDragEnd_active style path d :
  IDragData.isDragging d = true ->
  handleDragEnd style path d =
    ({| IDragData.x := IDragData.x d;
        IDragData.y := IDragData.y d;
        IDragData.isDragging := false;
        IDragData.vertical := IDragData.vertical d |},
     Some {| call_path := path;
             call_patch :=
               if IDragData.vertical d
               then {| patch_x := None;
                       patch_y := Some (element 1 (map percentToNormalized
                                                       (split " " style))) |}
               else {| patch_x := Some (element 0 (map percentToNormalized
                                                       (split " " style)));
                       patch_y := None |} |}).
Proof. intros H. unfold handleDragEnd. rewrite H. reflexivity. Qed.

Lemma handleDragEnd_clears style path d :
  IDragData.isDragging (fst (handleDragEnd style path d)) = false.
Proof.
  destruct (IDragData.isDragging d) eqn:H.
  - rewrite handleDragEnd_active by exact H. reflexivity.
  - rewrite handleDragEnd_inactive by exact H. exact H.
Qed.

Lemma step_End_inactive modRequired path b :
  IDragData.isDragging (dragData b) = false ->
  step modRequired path b End
  = {| img_objectPosition := img_objectPosition b;
       dragData := dragData b;
       upserts := (upserts b ++ [])%list |}.
Proof.
  intros H. cbn [step]. rewrite handleDragEnd_inactive by exact H. reflexivity.
Qed.

Lemma step_End_isDragging modRequired path b :
  IDragData.isDragging (dragData (step modRequired path b End)) = false.
Proof.
  cbn [step].
  pose proof (handleDragEnd_clears (img_objectPosition b) path (dragData b)) as H.
  destruct (handleDragEnd _ _ _) as [d c]. exact H.
Qed.

Lemma step_End_upserts modRequired path b :
  upserts (step modRequired path b End)
  = (upserts b ++ match snd (handleDragEnd (img_objectPosition b) path
                                           (dragData b)) with
                  | Some c => [c]
                  | None => []
                  end)%list.
Proof. cbn [step]. destruct (handleDragEnd _ _ _) as [d c]. reflexivity. Qed.

Lemma step_Start_accepted modRequired path b e :
  start_accepted e modRequired = true ->
  IDragData.isDragging (dragData (step modRequired path b (Start e))) = true
  /\ upserts (step modRequired path b (Start e)) = upserts b.
Proof.
  intros Hacc. cbn [step].
  assert (Hp : exists p, getMousePos e = Some p).
  { unfold start_accepted in Hacc. apply andb_true_iff in Hacc as [_ H].
    destruct (getMousePos e) as [p|]; [now exists p | discriminate]. }
  destruct Hp as [p Hp].
  rewrite (handleDragStart_accepted e (dragData b) modRequired p Hacc Hp).
  split; reflexivity.
Qed.

Lemma step_Start_not_accepted modRequired path b e :
  start_accepted e modRequired = false ->
  dragData (step modRequired path b (Start e)) = dragData b
  /\ upserts (step modRequired path b (Start e)) = upserts b.
Proof.
  intros Hacc. cbn [step]. unfold start_accepted in Hacc. unfold handleDragStart.
  destruct (negb (isModPressed e modRequired) && instanceof_MouseEvent e);
    [split; reflexivity|].
  destruct (getMousePos e); [discriminate|]. split; reflexivity.
Qed.

(** Each call follows an accepted start: over any inputs, the calls made
    and the drag still in progress are at most the accepted starts and the
    drag in progress before. *)
Lemma calls_bounded_by_starts modRequired path inputs : forall b,
  (List.length (upserts (run modRequired path b inputs))
   + Nat.b2n (IDragData.isDragging
                (dragData (run modRequired path b inputs)))
   <= List.length (upserts b) + Nat.b2n (IDragData.isDragging (dragData b))
      + accepted_starts modRequired inputs)%nat.
Proof.
  induction inputs as [|i inputs IH]; intros b.
  - unfold run, accepted_starts. cbn [fold_left filter List.length]. lia.
  - change (run modRequired path b (i :: inputs))
      with (run modRequired path (step modRequired path b i) inputs).
    specialize (IH (step modRequired path b i)).
    unfold accepted_starts in *. cbn [filter].
    destruct i as [e|e|].
    + destruct (start_accepted e modRequired) eqn:Hacc.
      * destruct (step_Start_accepted modRequired path b e Hacc) as [Hd Hu].
        rewrite Hd, Hu in IH. cbn [List.length].
        destruct (IDragData.isDragging (dragData b)); cbn [Nat.b2n] in *; lia.
      * destruct (step_Start_not_accepted modRequired path b e Hacc) as [Hd Hu].
        rewrite Hd, Hu in IH. lia.
    + rewrite step_Move_dragData, step_Move_upserts in IH.
      rewrite handleDragMove_isDragging in IH. lia.
    + rewrite step_End_isDragging, step_End_upserts in IH.
      rewrite length_app in IH.
      destruct (IDragData.isDragging (dragData b)) eqn:Hd.
      * rewrite handleDragEnd_active in IH by exact Hd.
        cbn [snd List.length Nat.b2n] in *. lia.
      * rewrite handleDragEnd_inactive in IH by exact Hd.
        cbn [snd List.length Nat.b2n] in *. lia.
Qed.

Lemma run_ends modRequired path n : forall b,
  IDragData.isDragging (dragData b) = false ->
  upserts (run modRequired path b (repeat End n)) = upserts b.
Proof.
  induction n as [|n IH]; intros b Hd; [reflexivity|].
  cbn [repeat].
  change (run modRequired path b (End :: repeat End n))
    with (run modRequired path (step modRequired path b End) (repeat End n)).
  rewrite IH by apply step_End_isDragging.
  rewrite step_End_upserts, handleDragEnd_inactive by exact Hd.
  apply app_nil_r.
Qed.

Lemma handleDragMove_anchor e d style :
  is_num (IDragData.x d) = true -> is_num (IDragData.y d) = true ->
  is_num (IDragData.x (snd (fst (handleDragMove e d style)))) = true
  /\ is_num (IDragData.y (snd (fst (handleDragMove e d style)))) = true.
Proof.
  intros Hx Hy. unfold handleDragMove.
  destruct (IDragData.isDragging d); cbn [negb]; [|auto].
  destruct (getMousePos e); [|auto].
  destruct (IDragData.vertical d); auto.
Qed.

Lemma run_moves_anchor modRequired path es : forall b,
  is_num (IDragData.x (dragData b)) = true ->
  is_num (IDragData.y (dragData b)) = true ->
  let b' := run modRequired path b (map Move es) in
  is_num (IDragData.x (dragData b')) = true
  /\ is_num (IDragData.y (dragData b')) = true.
Proof.
  induction es as [|e es IH]; intros b Hx Hy; unfold run; cbn [map fold_left].
  - auto.
  - apply IH; rewrite step_Move_dragData;
      apply handleDragMove_anchor; assumption.
Qed.

(** A gesture up to its end event: an accepted start and the moves that
    follow it leave a drag in progress, locked as the start decided, with
    a pointer position stored and no call made. *)
Lemma run_gesture modRequired path b s ms :
  start_accepted s modRequired = true ->
  let b1 := run modRequired path b (Start s :: map Move ms) in
  IDragData.isDragging (dragData b1) = true
  /\ IDragData.vertical (dragData b1) = locks_vertical (target_of s)
  /\ upserts b1 = upserts b
  /\ is_num (IDragData.x (dragData b1)) = true
  /\ is_num (IDragData.y (dragData b1)) = true.
Proof.
  intros Hacc b1. subst b1.
  change (run modRequired path b (Start s :: map Move ms))
    with (run modRequired path (step modRequired path b (Start s)) (map Move ms)).
  set (b0 := step modRequired path b (Start s)).
  assert (Hp : exists p, getMousePos s = Some p).
  { unfold start_accepted in Hacc. apply andb_true_iff in Hacc as [_ H].
    destruct (getMousePos s) as [p|]; [now exists p | discriminate]. }
  destruct Hp as [p Hp].
  assert (Hb0 : dragData b0
                = {| IDragData.x := num (clientX p);
                     IDragData.y := num (clientY p);
                     IDragData.isDragging := true;
                     IDragData.vertical := locks_vertical (target_of s) |}
                /\ upserts b0 = upserts b).
  { subst b0. cbn [step].
    rewrite (handleDragStart_accepted s (dragData b) modRequired p Hacc Hp).
    split; reflexivity. }
  destruct Hb0 as [Hd0 Hu0].
  destruct (run_moves_frame modRequired path ms b0) as (Hv & Hd & Hu).
  destruct (run_moves_anchor modRequired path ms b0) as (Hx & Hy);
    [rewrite Hd0; reflexivity | rewrite Hd0; reflexivity |].
  rewrite Hv, Hd, Hu, Hd0, Hu0. cbn. auto.
Qed.

(** ** [clamp] and the percentages *)

(** [x === x] holds of every number but NaN. *)
Lemma strict_eq_refl x : x <> NaN -> strict_eq x x = true.
Proof.
  intros Hx. unfold strict_eq, SFeqb.
  destruct x as [s|s| |s m e]; [reflexivity|destruct s; reflexivity| |].
  - now elim Hx.
  - cbn [SFcompare]. rewrite Z.compare_refl, Pos.compare_cont_refl.
    destruct s; reflexivity.
Qed.

(** [clamp] between two bounds in order gives a number between them. *)
Lemma clamp_range x lo hi :
  x <> NaN -> lo <> NaN -> hi <> NaN ->
  le lo hi = true ->
  le lo (clamp (num x) lo hi) = true /\ le (clamp (num x) lo hi) hi = true.
Proof.
  intros Hx Hlo Hhi Hle.
  assert (Hll : le lo lo = true).
  { pose proof (strict_eq_refl lo Hlo) as H. unfold strict_eq, SFeqb in H.
    unfold le, SFleb. destruct (SFcompare lo lo) as [[ | | ]|]; auto. }
  assert (Hhh : le hi hi = true).
  { pose proof (strict_eq_refl hi Hhi) as H. unfold strict_eq, SFeqb in H.
    unfold le, SFleb. destruct (SFcompare hi hi) as [[ | | ]|]; auto. }
  unfold clamp, baseClamp. cbn [ToNumber].
  rewrite (strict_eq_refl x Hx), (strict_eq_refl lo Hlo), (strict_eq_refl hi Hhi).
  destruct (le x hi) eqn:Hxh.
  - unfold ge. destruct (SFleb lo x) eqn:Hlx; auto.
  - unfold ge. fold (le lo hi). rewrite Hle. auto.
Qed.


Lemma clamp_cases c lo hi :
  c <> NaN -> lo <> NaN -> hi <> NaN ->
  (clamp (num c) lo hi = c /\ le lo c = true /\ le c hi = true)
  \/ clamp (num c) lo hi = lo
  \/ clamp (num c) lo hi = hi.
Proof.
  intros Hc Hlo Hhi. unfold clamp, baseClamp. cbn [ToNumber].
  rewrite (strict_eq_refl c Hc), (strict_eq_refl lo Hlo), (strict_eq_refl hi Hhi).
  destruct (le c hi) eqn:Hch.
  - unfold ge. fold (le lo c). destruct (le lo c) eqn:Hlc; auto.
  - destruct (ge hi lo); auto.
Qed.

Lemma of_Z_100 : of_Z 100 = S754_finite false 7036874417766400 (-46).
Proof. reflexivity. Qed.
Lemma of_Z_1 : of_Z 1 = S754_finite false 4503599627370496 (-52).
Proof. reflexivity. Qed.

(** A well-formed finite number has at most 53 binary digits. *)
Lemma well_formed_digits s m e :
  well_formed (S754_finite s m e) = true -> Zpos m < 2 ^ 53.
Proof.
  unfold well_formed, valid_binary, bounded, canonical_mantissa.
  intros H. apply andb_true_iff in H as [H _]. apply Z.eqb_eq in H.
  pose proof (digits2_pos_bounds m) as [_ Hhi].
  eapply Z.lt_le_trans; [exact Hhi|].
  apply Z.pow_le_mono_r; [lia|].
  unfold fexp, emin, prec, emax in H. lia.
Qed.

(** A well-formed number that compares between 0 and 1 is zero or at
    most 1. *)
Lemma le_0_1_at_most c :
  well_formed c = true -> le (of_Z 0) c = true -> le c (of_Z 1) = true ->
  (exists s, c = S754_zero s) \/ at_most 1 c.
Proof.
  intros Hwf H0 H1. rewrite of_Z_1 in H1.
  destruct c as [s|s| |s m e].
  - left. now exists s.
  - destruct s; discriminate.
  - discriminate.
  - right. destruct s; [discriminate|]. right. exists m, e.
    split; [reflexivity|].
    pose proof (well_formed_digits _ _ _ Hwf) as Hd.
    change (2 ^ 53) with 9007199254740992 in Hd.
    unfold le, SFleb, SFcompare in H1.
    destruct (e ?= -52) eqn:He.
    + apply Z.compare_eq in He. subst e. split; [lia|].
      change (2 ^ (- -52)) with 4503599627370496.
      rewrite Pos.compare_cont_spec in H1. cbn [Pos.switch_Eq] in H1.
      destruct (m ?= 4503599627370496)%positive eqn:Hm; try discriminate.
      * apply Pos.compare_eq in Hm. subst m. clear. lia.
      * assert (Hlt : (m < 4503599627370496)%positive) by exact Hm.
        apply Pos2Z.pos_lt_pos in Hlt. clear - Hlt. lia.
    + rewrite Z.compare_lt_iff in He. split; [lia|].
      assert (2 ^ 53 <= 2 ^ (- e)) by (apply Z.pow_le_mono_r; lia).
      change (2 ^ 53) with 9007199254740992 in *. lia.
    + discriminate.
Qed.

(** The product by [100] of a number between 0 and 1 is between 0 and
    100. *)
Lemma times_100_le m e :
  e <= 0 -> Zpos m <= 1 * 2 ^ (- e) ->
  at_most 100 (mul (S754_finite false m e) (of_Z 100)).
Proof.
  intros He Hm. rewrite of_Z_100. unfold mul, SFmul. cbn [xorb].
  rewrite <- (Z.div_1_r (Zpos (m * 7036874417766400))).
  apply binary_round_aux_le.
  - change (2 ^ 53) with 9007199254740992. lia.
  - lia.
  - lia.
  - split; [lia|].
    rewrite Pos2Z.inj_mul.
    replace (- (e + -46)) with (- e + 46) by lia.
    rewrite Z.pow_add_r by lia.
    change (2 ^ 46) with 70368744177664.
    assert (0 < 2 ^ (- e)) by (apply Z.pow_pos_nonneg; lia).
    nia.
  - intros H; congruence.
Qed.

Lemma percent_of_clamped c :
  well_formed c = true -> c <> NaN ->
  between 0 100 (mul (clamp (num c) (of_Z 0) (of_Z 1)) (of_Z 100)) = true.
Proof.
  intros Hwf Hc.
  destruct (clamp_cases c (of_Z 0) (of_Z 1) Hc) as [(-> & H0 & H1)|[->| ->]];
    try discriminate; try reflexivity.
  destruct (le_0_1_at_most c Hwf H0 H1) as [[s ->]|[->|(m & e & -> & He & Hm)]].
  - destruct s; reflexivity.
  - reflexivity.
  - apply at_most_between; [lia|]. now apply times_100_le.
Qed.


(** Between two positive finite numbers the comparison one way is the
    opposite of the comparison the other way. *)
Lemma SFcompare_positive_antisym m e m' e' :
  SFcompare (S754_finite false m' e') (S754_finite false m e)
  = option_map CompOpp (SFcompare (S754_finite false m e) (S754_finite false m' e')).
Proof.
  cbn [SFcompare option_map]. f_equal.
  rewrite (Z.compare_antisym e e').
  destruct (e ?= e'); cbn [CompOpp]; try reflexivity.
  rewrite Pos.compare_cont_antisym. reflexivity.
Qed.

(** [clamp] between 0 and a positive bound is the clamping of the
    specification. *)
Lemma clamp_spec c mh eh :
  c <> NaN ->
  let hi := S754_finite false mh eh in
  clamp (num c) (of_Z 0) hi
  = if lt c (of_Z 0) then of_Z 0 else if lt hi c then hi else c.
Proof.
  intros Hc hi. unfold clamp, baseClamp. cbn [ToNumber].
  rewrite (strict_eq_refl c Hc), (strict_eq_refl hi), (strict_eq_refl (of_Z 0))
    by discriminate.
  destruct c as [s|s| |s m e].
  - destruct s; reflexivity.
  - destruct s; reflexivity.
  - now elim Hc.
  - destruct s; [reflexivity|].
    unfold le, ge, lt, SFleb, SFltb, hi.
    rewrite (SFcompare_positive_antisym m e mh eh).
    destruct (SFcompare (S754_finite false m e) (S754_finite false mh eh))
      as [[ | | ]|] eqn:Hcmp; try reflexivity.
    cbn [SFcompare] in Hcmp. discriminate.
Qed.


Lemma clamp_spec_percent c :
  c <> NaN -> clamp (num c) (of_Z 0) (of_Z 100) = spec_clamp_percent c.
Proof. intros Hc. unfold spec_clamp_percent. rewrite of_Z_100. now apply clamp_spec. Qed.

Lemma clamp_NaN lo hi : clamp (num NaN) lo hi = NaN.
Proof. reflexivity. Qed.

(** A number between two integers is finite, so it is a percentage of
    CSS. *)
Lemma between_css lo hi v :
  between lo hi v = true -> css_percentage (num v) = true.
Proof. destruct v; cbn; congruence. Qed.

(** A number that compares from 0 to 100 is finite. *)
Lemma le_0_100_css v :
  le (of_Z 0) v = true -> le v (of_Z 100) = true ->
  css_percentage (num v) = true.
Proof.
  destruct v as [s|s| |s m e]; try reflexivity; try discriminate.
  destruct s; discriminate.
Qed.

Lemma assign_objectPosition_valid current px py :
  css_percentage px = true -> css_percentage py = true ->
  assign_objectPosition current px py = objectPosition px py.
Proof. intros Hx Hy. unfold assign_objectPosition. now rewrite Hx, Hy. Qed.

(** ** The pointer position a drag stores *)

Lemma run_moves_pointer modRequired path ms : forall b p v,
  dragData b = {| IDragData.x := num (clientX p);
                  IDragData.y := num (clientY p);
                  IDragData.isDragging := true;
                  IDragData.vertical := v |} ->
  dragData (run modRequired path b (map Move ms))
  = {| IDragData.x := num (clientX (last_pointer p ms));
       IDragData.y := num (clientY (last_pointer p ms));
       IDragData.isDragging := true;
       IDragData.vertical := v |}.
Proof.
  induction ms as [|e ms IH]; intros b p v Hb; unfold run, last_pointer;
    cbn [map fold_left].
  - exact Hb.
  - apply IH. rewrite step_Move_dragData. unfold handleDragMove.
    rewrite Hb. cbn [IDragData.isDragging negb].
    destruct (getMousePos e) as [q|]; cbn [fst snd].
    + cbn [IDragData.vertical]. destruct v; reflexivity.
    + reflexivity.
Qed.

(** ** Claims *)

(** C1: on an image rendered 400 by 200 with the vertical axis locked and
    the position "50% 50%", a start at (100,100) and a move to (100,80)
    give the position "50% 60%", and the end event then calls
    [upsertBannerData] with the patch [{y: 0.6}], which has no [x]. *)
Theorem gesture_up_20px
    (e1 e2 : MTEvent) (d0 : IDragData.t)
    (modRequired : BannerDragModOption) (path : string)
    (Hacc : start_accepted e1 modRequired = true)
    (Hp1 : getMousePos e1 = Some (point 100 100))
    (Hw1 : clientWidth (target_of e1) = 400)
    (Hh1 : clientHeight (target_of e1) = 200)
    (Hv : locks_vertical (target_of e1) = true)
    (Hp2 : getMousePos e2 = Some (point 100 80))
    (Hw2 : clientWidth (target_of e2) = 400)
    (Hh2 : clientHeight (target_of e2) = 200) :
  let d1 := snd (handleDragStart e1 d0 modRequired) in
  let moved := handleDragMove e2 d1 "50% 50%" in
  snd moved = "50% 60%"
  /\ snd (handleDragEnd (snd moved) path (snd (fst moved)))
     = Some {| call_path := path;
               call_patch :=
                 {| patch_x := None;
                    patch_y := Some (num (of_decimal false 6 (-1))) |} |}.
Proof.
  intros d1 moved. subst moved d1.
  rewrite (handleDragStart_accepted e1 d0 modRequired _ Hacc Hp1).
  unfold handleDragMove.
  cbn [snd IDragData.isDragging IDragData.vertical IDragData.x IDragData.y negb].
  rewrite Hp2, Hw2, Hh2, Hv.
  vm_compute. split; reflexivity.
Qed.

Lemma gesture_up_20px_witness :
  let e1 := MouseEvent no_keys (point 100 100) (image 400 200 800 600) in
  let e2 := MouseEvent no_keys (point 100 80) (image 400 200 800 600) in
  let d1 := snd (handleDragStart e1 (dragData centered) mod_none) in
  let moved := handleDragMove e2 d1 "50% 50%" in
  snd moved = "50% 60%"
  /\ snd (handleDragEnd (snd moved) "note.md" (snd (fst moved)))
     = Some {| call_path := "note.md";
               call_patch :=
                 {| patch_x := None;
                    patch_y := Some (num (of_decimal false 6 (-1))) |} |}.
Proof.
  apply (gesture_up_20px
           (MouseEvent no_keys (point 100 100) (image 400 200 800 600))
           (MouseEvent no_keys (point 100 80) (image 400 200 800 600))
           (dragData centered) mod_none "note.md");
    vm_compute; reflexivity.
Defined.

(** C3 (as stated, refuted): a touch start without a touch point is not
    accepted, whatever the policy: no drag begins. *)
Lemma touch_start_without_point_not_accepted :
  IDragData.isDragging
    (snd (handleDragStart (TouchEvent no_keys [] (image 400 200 800 600))
                          (dragData centered) mod_none))
  <> true.
Proof. vm_compute. discriminate. Qed.

(** C3 (amended): under the policy alt, ctrl, meta or shift a mouse start
    begins the drag when that key is held and otherwise returns with the
    drag data as they were; under the policy "none" every mouse start
    begins it; a touch start that carries a touch point begins it at the
    first touch point whatever the policy and whatever keys are held. *)
Theorem modifier_policy_gates_mouse_only :
  (forall keys pos target d,
      handleDragStart (MouseEvent keys pos target) d mod_alt
      = (Normal, if altKey keys then started pos target else d)
      /\ handleDragStart (MouseEvent keys pos target) d mod_ctrl
         = (Normal, if ctrlKey keys then started pos target else d)
      /\ handleDragStart (MouseEvent keys pos target) d mod_meta
         = (Normal, if metaKey keys then started pos target else d)
      /\ handleDragStart (MouseEvent keys pos target) d mod_shift
         = (Normal, if shiftKey keys then started pos target else d)
      /\ handleDragStart (MouseEvent keys pos target) d mod_none
         = (Normal, started pos target))
  /\ (forall keys t rest target d modRequired,
      handleDragStart (TouchEvent keys (t :: rest) target) d modRequired
      = (Normal, started t target)).
Proof.
  split.
  - intros keys pos target d. unfold handleDragStart, started.
    cbn [isModPressed keys_of instanceof_MouseEvent getMousePos target_of].
    repeat split;
      try (destruct (altKey keys)); try (destruct (ctrlKey keys));
      try (destruct (metaKey keys)); try (destruct (shiftKey keys));
      reflexivity.
  - intros keys t rest target d modRequired. unfold handleDragStart, started.
    cbn [instanceof_MouseEvent getMousePos target_of].
    rewrite andb_false_r. reflexivity.
Qed.



(** C5: while no drag is in progress a move event and an end event change
    nothing and make no call; the end handler clears the flag, so end
    events delivered again make no further call, no run of events makes
    more calls than it has accepted starts, and two gestures make exactly
    two calls, in the order of the gestures. *)
Theorem inactive_events_are_no_ops :
  (forall e d style,
      IDragData.isDragging d = false ->
      handleDragMove e d style = (Normal, d, style))
  /\ (forall style path d,
      IDragData.isDragging d = false ->
      handleDragEnd style path d = (d, None))
  /\ (forall style path d,
      IDragData.isDragging (fst (handleDragEnd style path d)) = false)
  /\ (forall modRequired path b n,
      upserts (run modRequired path b (repeat End (S n)))
      = upserts (run modRequired path b [End]))
  /\ (forall modRequired path b inputs,
      (List.length (upserts (run modRequired path b inputs))
       <= List.length (upserts b)
          + Nat.b2n (IDragData.isDragging (dragData b))
          + accepted_starts modRequired inputs)%nat)
  /\ (forall modRequired path b s1 ms1 s2 ms2,
      start_accepted s1 modRequired = true ->
      start_accepted s2 modRequired = true ->
      let b1 := run modRequired path b (Start s1 :: map Move ms1) in
      let b2 := run modRequired path (step modRequired path b1 End)
                    (Start s2 :: map Move ms2) in
      exists c1 c2,
        snd (handleDragEnd (img_objectPosition b1) path (dragData b1)) = Some c1
        /\ snd (handleDragEnd (img_objectPosition b2) path (dragData b2)) = Some c2
        /\ upserts (run modRequired path b
                        ((Start s1 :: map Move ms1) ++ End
                         :: (Start s2 :: map Move ms2) ++ [End]))
           = (upserts b ++ [c1; c2])%list).
Proof.
  split; [exact handleDragMove_inactive|].
  split; [exact handleDragEnd_inactive|].
  split; [exact handleDragEnd_clears|].
  split; [|split].
  - intros modRequired path b n. cbn [repeat].
    change (run modRequired path b (End :: repeat End n))
      with (run modRequired path (step modRequired path b End) (repeat End n)).
    apply run_ends, step_End_isDragging.
  - intros modRequired path b inputs.
    pose proof (calls_bounded_by_starts modRequired path inputs b). lia.
  - intros modRequired path b s1 ms1 s2 ms2 H1 H2 b1 b2.
    destruct (run_gesture modRequired path b s1 ms1 H1) as (Hd1 & _ & Hu1 & _).
    fold b1 in Hd1, Hu1.
    destruct (run_gesture modRequired path (step modRequired path b1 End)
                s2 ms2 H2) as (Hd2 & _ & Hu2 & _).
    fold b2 in Hd2, Hu2.
    rewrite (handleDragEnd_active _ path _ Hd1).
    rewrite (handleDragEnd_active _ path _ Hd2).
    cbn [snd]. eexists. eexists. split; [reflexivity|]. split; [reflexivity|].
    rewrite run_app. fold b1.
    change (run modRequired path b1 (End :: (Start s2 :: map Move ms2) ++ [End]))
      with (run modRequired path (step modRequired path b1 End)
                ((Start s2 :: map Move ms2) ++ [End])).
    rewrite run_app. fold b2.
    change (run modRequired path b2 [End]) with (step modRequired path b2 End).
    rewrite step_End_upserts, Hu2, step_End_upserts, Hu1.
    rewrite (handleDragEnd_active _ path _ Hd1).
    rewrite (handleDragEnd_active _ path _ Hd2).
    cbn [snd]. rewrite <- app_assoc. reflexivity.
Qed.

(** C6 (as stated, refuted): on a touch event without a touch point the
    start handler does not return, it throws. *)
Lemma touch_without_point_throws :
  fst (handleDragStart (TouchEvent no_keys [] (image 400 200 800 600))
                       (dragData centered) mod_none)
  <> Normal.
Proof. vm_compute. discriminate. Qed.

(** C6 (amended): on a touch event without a touch point the start
    handler throws a TypeError before it writes anything, so no gesture
    starts; the move handler returns at once when no drag is in progress
    and otherwise throws the same error before it writes anything: the
    drag data and the displayed position are unchanged in every case. *)
Theorem touch_without_point_changes_nothing :
  forall keys target d modRequired style,
    handleDragStart (TouchEvent keys [] target) d modRequired = (TypeError, d)
    /\ handleDragMove (TouchEvent keys [] target) d style
       = (if IDragData.isDragging d then TypeError else Normal, d, style).
Proof.
  intros keys target d modRequired style. split.
  - unfold handleDragStart. cbn [instanceof_MouseEvent getMousePos].
    rewrite andb_false_r. reflexivity.
  - unfold handleDragMove. cbn [getMousePos].
    destruct (IDragData.isDragging d); reflexivity.
Qed.




(** C8 (as stated, refuted): after a completed gesture the stored pointer
    coordinates are not both null. *)
Lemma coordinates_not_reset :
  let b := run mod_none "note.md" centered
               [ Start (MouseEvent no_keys (point 100 100) (image 400 200 800 600));
                 Move (MouseEvent no_keys (point 100 80) (image 400 200 800 600));
                 End ] in
  ~ (IDragData.x (dragData b) = null /\ IDragData.y (dragData b) = null).
Proof. vm_compute. intros [H _]. discriminate. Qed.

(** C8 (amended): the end event of a gesture clears the active flag and
    nothing else: the stored pointer coordinates and the axis lock stay as
    they were.  So after a whole gesture the drag data are inactive, locked
    as the start decided, and hold the last pointer position of the
    gesture, that of the last of its start and move events to carry one,
    not null. *)
Theorem end_clears_only_the_flag
    (style path : string) (d : IDragData.t)
    (Hd : IDragData.isDragging d = true) :
  fst (handleDragEnd style path d)
  = {| IDragData.x := IDragData.x d;
       IDragData.y := IDragData.y d;
       IDragData.isDragging := false;
       IDragData.vertical := IDragData.vertical d |}
  /\ forall modRequired b s p ms,
       start_accepted s modRequired = true ->
       getMousePos s = Some p ->
       dragData (run modRequired path b ((Start s :: map Move ms) ++ [End]))
       = {| IDragData.x := num (clientX (last_pointer p ms));
            IDragData.y := num (clientY (last_pointer p ms));
            IDragData.isDragging := false;
            IDragData.vertical := locks_vertical (target_of s) |}.
Proof.
  split.
  - rewrite handleDragEnd_active by exact Hd. reflexivity.
  - intros modRequired b s p ms Hacc Hp. rewrite run_app.
    change (run modRequired path b (Start s :: map Move ms))
      with (run modRequired path (step modRequired path b (Start s)) (map Move ms)).
    set (b0 := step modRequired path b (Start s)).
    assert (Hb0 : dragData b0
                  = {| IDragData.x := num (clientX p);
                       IDragData.y := num (clientY p);
                       IDragData.isDragging := true;
                       IDragData.vertical := locks_vertical (target_of s) |}).
    { subst b0. cbn [step].
      rewrite (handleDragStart_accepted s (dragData b) modRequired p Hacc Hp).
      reflexivity. }
    pose proof (run_moves_pointer modRequired path ms b0 p _ Hb0) as Hb1.
    set (b1 := run modRequired path b0 (map Move ms)) in *.
    change (run modRequired path b1 [End]) with (step modRequired path b1 End).
    cbn [step]. rewrite handleDragEnd_active by (rewrite Hb1; reflexivity).
    cbn [dragData]. rewrite Hb1. reflexivity.
Qed.

Lemma end_clears_only_the_flag_witness :
  let d := dragging_from 100 80 true in
  fst (handleDragEnd "50% 60%" "note.md" d)
  = {| IDragData.x := IDragData.x d;
       IDragData.y := IDragData.y d;
       IDragData.isDragging := false;
       IDragData.vertical := IDragData.vertical d |}
  /\ forall modRequired b s p ms,
       start_accepted s modRequired = true ->
       getMousePos s = Some p ->
       dragData (run modRequired "note.md" b
                     ((Start s :: map Move ms) ++ [End]))
       = {| IDragData.x := num (clientX (last_pointer p ms));
            IDragData.y := num (clientY (last_pointer p ms));
            IDragData.isDragging := false;
            IDragData.vertical := locks_vertical (target_of s) |}.
Proof.
  exact (end_clears_only_the_flag "50% 60%" "note.md"
           (dragging_from 100 80 true) eq_refl).
Defined.




(** C10: an accepted start overwrites the stored pointer position and the
    axis lock whatever the drag data were, a drag in progress included; so
    a second start during a gesture can change the locked axis, and the end
    event then commits the other field. *)
Theorem start_during_drag_restarts :
  (forall e d modRequired p,
      start_accepted e modRequired = true ->
      getMousePos e = Some p ->
      handleDragStart e d modRequired
      = (Normal,
         {| IDragData.x := num (clientX p);
            IDragData.y := num (clientY p);
            IDragData.isDragging := true;
            IDragData.vertical := locks_vertical (target_of e) |}))
  /\ (let e1 := MouseEvent no_keys (point 100 100) (image 400 200 800 600) in
      let e2 := MouseEvent no_keys (point 150 100) (image 400 200 1600 400) in
      let b1 := run mod_none "note.md" centered [Start e1] in
      let b2 := run mod_none "note.md" centered [Start e1; Start e2] in
      dragData b1 = dragging_from 100 100 true
      /\ dragData b2 = dragging_from 150 100 false
      /\ upserts (run mod_none "note.md" centered [Start e1; End])
         = [ {| call_path := "note.md";
                call_patch :=
                  {| patch_x := None;
                     patch_y := Some (num (of_decimal false 5 (-1))) |} |} ]
      /\ upserts (run mod_none "note.md" centered [Start e1; Start e2; End])
         = [ {| call_path := "note.md";
                call_patch :=
                  {| patch_x := Some (num (of_decimal false 5 (-1)));
                     patch_y := None |} |} ]).
Proof.
  split.
  - intros e d modRequired p Hacc Hp. apply handleDragStart_accepted; assumption.
  - vm_compute. repeat split; reflexivity.
Qed.

(** ** Strings *)

Lemma length_append (a b : string) :
  String.length (a ++ b) = (String.length a + String.length b)%nat.
Proof. induction a as [|c a IH]; cbn; [reflexivity|now rewrite IH]. Qed.

Lemma substring_skip (a b : string) (n k : nat) :
  substring (String.length a + n) k (a ++ b) = substring n k b.
Proof. induction a as [|c a IH]; cbn; [reflexivity|exact IH]. Qed.

Lemma substring_0_append (a b : string) :
  substring 0 (String.length a) (a ++ b) = a.
Proof. induction a as [|c a IH]; cbn; [now destruct b|now rewrite IH]. Qed.

Lemma substring_all (a : string) : substring 0 (String.length a) a = a.
Proof. induction a as [|c a IH]; cbn; [reflexivity|now rewrite IH]. Qed.

Lemma substring_split (s : string) : forall n,
  (n <= String.length s)%nat ->
  s = substring 0 n s ++ substring n (String.length s - n) s.
Proof.
  induction s as [|c s IH]; intros n Hn.
  - destruct n; reflexivity.
  - destruct n as [|n].
    + cbn [substring append]. cbn [String.length Nat.sub].
      now rewrite substring_all.
    + cbn in Hn. cbn [substring append String.length Nat.sub].
      f_equal. apply IH. lia.
Qed.

Lemma length_substring (s : string) : forall n k,
  (n + k <= String.length s)%nat -> String.length (substring n k s) = k.
Proof.
  induction s as [|c s IH]; intros n k H.
  - cbn in H. assert (n = 0 /\ k = 0)%nat as [-> ->] by lia. reflexivity.
  - destruct n as [|n].
    + destruct k as [|k]; [reflexivity|]. cbn in *. f_equal. apply IH. lia.
    + cbn in *. apply IH. lia.
Qed.

Lemma prefix_append (a b : string) : prefix a (a ++ b) = true.
Proof. apply prefix_correct, substring_0_append. Qed.

(** ** [parseSource] *)

Lemma is_embed_link_intro (link : string) :
  link <> "" -> single_line link = true ->
  is_embed_link ("![[" ++ link ++ "]]") = true
  /\ slice 3 2 ("![[" ++ link ++ "]]") = link.
Proof.
  intros Hne Hsl.
  assert (Hlen : String.length ("![[" ++ link ++ "]]")
                 = (3 + (String.length link + 2))%nat).
  { rewrite length_append, length_append. reflexivity. }
  assert (Hslice : slice 3 2 ("![[" ++ link ++ "]]") = link).
  { unfold slice. rewrite Hlen.
    replace (3 + (String.length link + 2) - 3 - 2)%nat
      with (String.length link) by lia.
    change 3%nat with (String.length "![[" + 0)%nat at 1.
    rewrite substring_skip. apply substring_0_append. }
  split; [|exact Hslice].
  unfold is_embed_link. rewrite Hslice, Hsl, Hlen.
  replace (3 + (String.length link + 2) - 2)%nat
    with (String.length "![[" + (String.length link + 0))%nat by (cbn; lia).
  rewrite substring_skip, substring_skip.
  rewrite andb_true_r.
  apply andb_true_iff; split; [apply andb_true_iff; split|reflexivity].
  - apply prefix_append.
  - apply Nat.leb_le. destruct link as [|c link]; [now elim Hne|cbn; lia].
Qed.

Lemma is_embed_link_elim (src : string) :
  is_embed_link src = true ->
  exists link, src = "![[" ++ link ++ "]]"
               /\ link <> "" /\ single_line link = true
               /\ slice 3 2 src = link.
Proof.
  unfold is_embed_link. intros H.
  apply andb_true_iff in H as [H Hsl].
  apply andb_true_iff in H as [H Hend].
  apply andb_true_iff in H as [Hpre Hlen].
  apply Nat.leb_le in Hlen. apply String.eqb_eq in Hend.
  apply prefix_correct in Hpre. cbn [String.length] in Hpre.
  assert (Hr : exists r, src = "![[" ++ r).
  { exists (substring 3 (String.length src - 3) src).
    rewrite <- Hpre. apply substring_split. lia. }
  destruct Hr as [r ->]. clear Hpre.
  assert (Hlr : String.length ("![[" ++ r) = (3 + String.length r)%nat)
    by (rewrite length_append; reflexivity).
  rewrite Hlr in Hlen, Hend.
  assert (Hlink : slice 3 2 ("![[" ++ r) = substring 0 (String.length r - 2) r).
  { unfold slice. rewrite Hlr.
    replace (3 + String.length r - 3 - 2)%nat with (String.length r - 2)%nat by lia.
    apply (substring_skip "![[" r 0). }
  assert (Htail : substring (String.length r - 2) 2 r = "]]").
  { rewrite <- Hend.
    replace (3 + String.length r - 2)%nat
      with (String.length "![[" + (String.length r - 2))%nat by (cbn; lia).
    now rewrite substring_skip. }
  rewrite Hlink in Hsl |- *.
  exists (substring 0 (String.length r - 2) r). repeat split.
  - f_equal.
    pose proof (substring_split r (String.length r - 2) ltac:(lia)) as Hs.
    replace (String.length r - (String.length r - 2))%nat with 2%nat in Hs by lia.
    rewrite Htail in Hs. exact Hs.
  - intros Hempty.
    assert (H0 : String.length (substring 0 (String.length r - 2) r) = 0%nat)
      by now rewrite Hempty.
    rewrite length_substring in H0; lia.
  - exact Hsl.
Qed.

Lemma no_terminator_at_line_terminator t b :
  In t line_terminators -> no_terminator_at (t ++ b) = false.
Proof.
  intros [<-|[<-|[<-|[<-|[]]]]].
  - destruct b as [|c2 [|c3 b]]; reflexivity.
  - destruct b as [|c2 [|c3 b]]; reflexivity.
  - reflexivity.
  - reflexivity.
Qed.

Lemma single_line_no_terminator s :
  single_line s = true -> ~ has_line_terminator s.
Proof.
  intros Hs (a & t & b & Ht & ->). revert Hs. induction a as [|c a IH].
  - cbn [append]. pose proof (no_terminator_at_line_terminator t b Ht) as Hn.
    destruct (t ++ b) eqn:E.
    + discriminate Hn.
    + cbn [single_line]. rewrite Hn. discriminate.
  - cbn [append single_line]. intros H. apply andb_prop in H. apply IH, H.
Qed.

Lemma no_terminator_at_false s :
  no_terminator_at s = false ->
  exists t b, In t line_terminators /\ s = t ++ b.
Proof.
  assert (H1 : forall c r, is_line_terminator c = true ->
                 exists t b, In t line_terminators /\ String c r = t ++ b).
  { intros c r H. unfold is_line_terminator in H. apply orb_prop in H.
    destruct H as [H|H]; apply Ascii.eqb_eq in H; subst c.
    - exists LF, r. split; [left; reflexivity|reflexivity].
    - exists CR, r. split; [right; left; reflexivity|reflexivity]. }
  assert (Hcode : forall c n, nat_of_ascii c = n -> c = ascii_of_nat n).
  { intros c n <-. symmetry. apply ascii_nat_embedding. }
  destruct s as [|c1 [|c2 [|c3 r]]]; cbn [no_terminator_at]; intros H.
  - discriminate.
  - apply negb_false_iff in H. now apply H1.
  - apply negb_false_iff in H. now apply H1.
  - apply andb_false_iff in H. destruct H as [H|H]; apply negb_false_iff in H.
    + now apply H1.
    + unfold is_line_terminator3 in H.
      apply andb_prop in H. destruct H as [H12 H3].
      apply andb_prop in H12. destruct H12 as [Hc1 Hc2].
      apply Nat.eqb_eq, Hcode in Hc1. apply Nat.eqb_eq, Hcode in Hc2.
      subst c1 c2. apply orb_prop in H3.
      destruct H3 as [H3|H3]; apply Nat.eqb_eq, Hcode in H3; subst c3.
      * exists LS, r. split; [right; right; left; reflexivity|reflexivity].
      * exists PS, r.
        split; [right; right; right; left; reflexivity|reflexivity].
Qed.

Lemma no_terminator_single_line s :
  ~ has_line_terminator s -> single_line s = true.
Proof.
  induction s as [|c s IH]; intros H; [reflexivity|].
  cbn [single_line]. apply andb_true_intro. split.
  - destruct (no_terminator_at (String c s)) eqn:E; [reflexivity|].
    exfalso. apply H. destruct (no_terminator_at_false _ E) as (t & b & Ht & Hs).
    exists "", t, b. split; [exact Ht|exact Hs].
  - apply IH. intros (a & t & b & Ht & ->). apply H.
    exists (String c a), t, b. split; [exact Ht|reflexivity].
Qed.

(** X1: [parseSource] takes the source for an internal embed exactly when
    it is ["![[" ++ link ++ "]]"] for a link text that is not empty and
    holds no line terminator (LF, CR, U+2028 or U+2029); the link text is
    then resolved from the note's path, and it is returned as it is when
    it resolves to no file. *)
Theorem parseSource_embed :
  forall plugin src filepath,
    (is_embed_link src = true
     <-> exists link, src = "![[" ++ link ++ "]]"
                      /\ link <> "" /\ ~ has_line_terminator link)
    /\ forall link,
         src = "![[" ++ link ++ "]]" -> link <> "" ->
         ~ has_line_terminator link ->
         parseSource plugin src filepath
         = match getFirstLinkpathDest plugin link filepath with
           | Some file => getResourcePath plugin file
           | None => link
           end.
Proof.
  intros plugin src filepath. split; [split|].
  - intros H. destruct (is_embed_link_elim src H) as (link & H1 & H2 & H3 & _).
    exists link. split; [exact H1|]. split; [exact H2|].
    now apply single_line_no_terminator.
  - intros (link & -> & Hne & Hsl).
    now apply is_embed_link_intro, no_terminator_single_line.
  - intros link -> Hne Hsl.
    destruct (is_embed_link_intro link Hne (no_terminator_single_line _ Hsl))
      as [Hemb Hslice].
    unfold parseSource. rewrite Hemb, Hslice. reflexivity.
Qed.

Lemma slash_not_embed (p : string) : is_embed_link ("/" ++ p) = false.
Proof.
  unfold is_embed_link.
  destruct (prefix "![[" ("/" ++ p)) eqn:H; [|reflexivity].
  apply prefix_correct in H. cbn in H. discriminate.
Qed.

Lemma slice_1_0_slash (p : string) : slice 1 0 ("/" ++ p) = p.
Proof.
  unfold slice. cbn [append String.length Nat.sub substring].
  rewrite !Nat.sub_0_r. apply substring_all.
Qed.

(** X2: a source that starts with a slash is looked up in the vault
    without the slash; when a file is there its resource path is
    returned, and when nothing or a folder is there the source is returned
    as given, slash included.  A source that is neither an embed nor
    found in the vault, such as a URL, is returned unchanged. *)
Theorem parseSource_path :
  forall plugin filepath,
    (forall p,
        parseSource plugin ("/" ++ p) filepath
        = match getAbstractFileByPath plugin p with
          | Some (AFile file) => getResourcePath plugin file
          | _ => "/" ++ p
          end)
    /\ (forall src,
        is_embed_link src = false ->
        getAbstractFileByPath plugin
          (if prefix "/" src then slice 1 0 src else src) = None ->
        parseSource plugin src filepath = src).
Proof.
  intros plugin filepath. split.
  - intros p. unfold parseSource.
    rewrite slash_not_embed.
    rewrite (prefix_append "/" p).
    rewrite slice_1_0_slash. reflexivity.
  - intros src Hemb Hnone. unfold parseSource. rewrite Hemb, Hnone. reflexivity.
Qed.

(** ** The attached handlers *)

Lemma banner_eta (b : Banner) :
  {| img_objectPosition := img_objectPosition b;
     dragData := dragData b;
     upserts := upserts b |} = b.
Proof. destruct b. reflexivity. Qed.

(** X3: in an embed, and for a banner whose position is locked, no
    handler is attached: whatever events arrive, the position, the drag
    data and the list of calls stay as they were. *)
Theorem no_drag_when_embedded_or_locked
    (settings : BannersSettings) (bannerData : IBannerMetadata.t)
    (filepath : string) (isEmbed : bool)
    (Hoff : isEmbed = true \/ IBannerMetadata.lock bannerData = true) :
  forall events b,
    fire settings bannerData filepath isEmbed b events = b.
Proof.
  intros events. induction events as [|ev events IH]; intros b.
  - reflexivity.
  - unfold fire in *. cbn [fold_left].
    replace (dispatch settings bannerData filepath isEmbed b ev) with b;
      [apply IH|].
    unfold dispatch.
    destruct Hoff as [-> | ->]; [reflexivity|].
    rewrite andb_false_r. reflexivity.
Qed.

Lemma no_drag_when_embedded_or_locked_witness :
  fire {| bannerDragModifier := mod_none; allowMobileDrag := true |}
       (IBannerMetadata.mk "banner.png" None None true)
       "note.md" false centered
       [ onmousedown no_keys (point 100 100) (image 400 200 800 600);
         onmousemove no_keys (point 100 80) (image 400 200 800 600);
         onmouseup ]
  = centered.
Proof.
  exact (no_drag_when_embedded_or_locked
           {| bannerDragModifier := mod_none; allowMobileDrag := true |}
           (IBannerMetadata.mk "banner.png" None None true)
           "note.md" false (or_intror eq_refl)
           [ onmousedown no_keys (point 100 100) (image 400 200 800 600);
             onmousemove no_keys (point 100 80) (image 400 200 800 600);
             onmouseup ]
           centered).
Defined.

(** X4: unless the settings allow dragging on mobile, the touch handlers
    are not attached: a sequence of events has the effect of its mouse
    events alone. *)
Theorem touch_ignored_without_allowMobileDrag
    (settings : BannersSettings) (bannerData : IBannerMetadata.t)
    (filepath : string) (isEmbed : bool)
    (Hoff : allowMobileDrag settings = false) :
  forall events b,
    fire settings bannerData filepath isEmbed b events
    = fire settings bannerData filepath isEmbed b
           (filter (fun ev => negb (is_touch ev)) events).
Proof.
  intros events. induction events as [|ev events IH]; intros b.
  - reflexivity.
  - unfold fire in *. cbn [fold_left filter].
    destruct ev; cbn [is_touch negb fold_left]; try apply IH;
      (replace (dispatch settings bannerData filepath isEmbed b _) with b;
       [apply IH|]);
      unfold dispatch; rewrite Hoff;
      destruct (negb isEmbed && negb (IBannerMetadata.lock bannerData));
      reflexivity.
Qed.

Lemma touch_ignored_without_allowMobileDrag_witness :
  let settings := {| bannerDragModifier := mod_none; allowMobileDrag := false |} in
  let bannerData := IBannerMetadata.mk "banner.png" None None false in
  let events :=
    [ ontouchstart no_keys [point 100 100] (image 400 200 800 600);
      onmousedown no_keys (point 100 100) (image 400 200 800 600);
      ontouchmove no_keys [point 100 60] (image 400 200 800 600);
      onmousemove no_keys (point 100 80) (image 400 200 800 600);
      ontouchend ] in
  fire settings bannerData "note.md" false centered events
  = fire settings bannerData "note.md" false centered
         (filter (fun ev => negb (is_touch ev)) events).
Proof.
  exact (touch_ignored_without_allowMobileDrag
           {| bannerDragModifier := mod_none; allowMobileDrag := false |}
           (IBannerMetadata.mk "banner.png" None None false)
           "note.md" false eq_refl
           [ ontouchstart no_keys [point 100 100] (image 400 200 800 600);
             onmousedown no_keys (point 100 100) (image 400 200 800 600);
             ontouchmove no_keys [point 100 60] (image 400 200 800 600);
             onmousemove no_keys (point 100 80) (image 400 200 800 600);
             ontouchend ]
           centered).
Defined.

(** ** Gestures that never start *)

Lemma run_moves_inactive modRequired path ms : forall b,
  IDragData.isDragging (dragData b) = false ->
  run modRequired path b (map Move ms) = b.
Proof.
  induction ms as [|e ms IH]; intros b Hd; [reflexivity|].
  unfold run in *. cbn [map fold_left].
  replace (step modRequired path b (Move e)) with b; [now apply IH|].
  cbn [step]. rewrite handleDragMove_inactive by exact Hd.
  symmetry. apply banner_eta.
Qed.

(** X5: when a start is not accepted while no drag is in progress (a
    mouse press without the required key, a touch without a touch point),
    the moves that follow and the release change nothing: the banner is as
    it was, with the same position and no new call. *)
Theorem refused_start_gesture_is_void
    (modRequired : BannerDragModOption) (path : string) (b : Banner)
    (s : MTEvent) (ms : list MTEvent)
    (Hs : start_accepted s modRequired = false)
    (Hb : IDragData.isDragging (dragData b) = false) :
  run modRequired path b ((Start s :: map Move ms) ++ [End]) = b.
Proof.
  rewrite run_app.
  change (run modRequired path b (Start s :: map Move ms))
    with (run modRequired path (step modRequired path b (Start s)) (map Move ms)).
  assert (H0 : step modRequired path b (Start s) = b).
  { destruct (step_Start_not_accepted modRequired path b s Hs) as [Hd _].
    cbn [step] in *. destruct (handleDragStart s (dragData b) modRequired) as [c d].
    cbn [dragData] in Hd. subst d. apply banner_eta. }
  rewrite H0, run_moves_inactive by exact Hb.
  change (run modRequired path b [End]) with (step modRequired path b End).
  rewrite step_End_inactive by exact Hb.
  rewrite app_nil_r. apply banner_eta.
Qed.

Lemma refused_start_gesture_is_void_witness :
  run mod_ctrl "note.md" centered
      ((Start (MouseEvent no_keys (point 100 100) (image 400 200 800 600))
        :: map Move [MouseEvent no_keys (point 100 80) (image 400 200 800 600)])
       ++ [End])
  = centered.
Proof.
  exact (refused_start_gesture_is_void mod_ctrl "note.md" centered
           (MouseEvent no_keys (point 100 100) (image 400 200 800 600))
           [MouseEvent no_keys (point 100 80) (image 400 200 800 600)]
           eq_refl eq_refl).
Defined.

(** ** Invariants of a banner *)

Lemma step_keeps_anchor modRequired path b i :
  (IDragData.isDragging (dragData b) = true ->
   is_num (IDragData.x (dragData b)) = true
   /\ is_num (IDragData.y (dragData b)) = true) ->
  IDragData.isDragging (dragData (step modRequired path b i)) = true ->
  is_num (IDragData.x (dragData (step modRequired path b i))) = true
  /\ is_num (IDragData.y (dragData (step modRequired path b i))) = true.
Proof.
  intros Inv. destruct i as [e|e|].
  - cbn [step]. unfold handleDragStart.
    destruct (negb (isModPressed e modRequired) && instanceof_MouseEvent e);
      [exact Inv|].
    destruct (getMousePos e); [|exact Inv]. cbn. auto.
  - rewrite step_Move_dragData, handleDragMove_isDragging. intros Hd.
    destruct (Inv Hd) as [Hx Hy]. now apply handleDragMove_anchor.
  - rewrite step_End_isDragging. discriminate.
Qed.

(** X6: from the banner as created, after any events, a drag in progress
    has a pointer position stored: while [isDragging] is true neither
    coordinate of the drag data is null. *)
Theorem dragging_has_anchor :
  forall bannerData modRequired path inputs,
    let b := run modRequired path (getBannerElements bannerData) inputs in
    IDragData.isDragging (dragData b) = true ->
    is_num (IDragData.x (dragData b)) = true
    /\ is_num (IDragData.y (dragData b)) = true.
Proof.
  intros bannerData modRequired path inputs.
  assert (Hgen : forall b0,
            (IDragData.isDragging (dragData b0) = true ->
             is_num (IDragData.x (dragData b0)) = true
             /\ is_num (IDragData.y (dragData b0)) = true) ->
            let b := run modRequired path b0 inputs in
            IDragData.isDragging (dragData b) = true ->
            is_num (IDragData.x (dragData b)) = true
            /\ is_num (IDragData.y (dragData b)) = true).
  { induction inputs as [|i inputs IH]; intros b0 Inv; [exact Inv|].
    change (run modRequired path b0 (i :: inputs))
      with (run modRequired path (step modRequired path b0 i) inputs).
    apply IH. now apply step_keeps_anchor. }
  apply Hgen. cbn. discriminate.
Qed.

Lemma dragging_has_anchor_witness :
  let b := run mod_none "note.md"
               (getBannerElements (IBannerMetadata.mk "banner.png" None None false))
               [ Start (MouseEvent no_keys (point 100 100) (image 400 200 800 600));
                 Move (MouseEvent no_keys (point 100 80) (image 400 200 800 600)) ] in
  is_num (IDragData.x (dragData b)) = true
  /\ is_num (IDragData.y (dragData b)) = true.
Proof.
  apply (dragging_has_anchor
           (IBannerMetadata.mk "banner.png" None None false) mod_none "note.md"
           [ Start (MouseEvent no_keys (point 100 100) (image 400 200 800 600));
             Move (MouseEvent no_keys (point 100 80) (image 400 200 800 600)) ]).
  vm_compute. reflexivity.
Defined.

(** X9: the calls made are only ever added to, each for the file of the
    banner and each with one field, [x] or [y], never both. *)
Theorem calls_are_appended_single_axis :
  forall modRequired path inputs b,
    exists new,
      upserts (run modRequired path b inputs) = (upserts b ++ new)%list
      /\ Forall (single_axis_call path) new.
Proof.
  intros modRequired path inputs.
  induction inputs as [|i inputs IH]; intros b.
  - exists []. split; [symmetry; apply app_nil_r|constructor].
  - change (run modRequired path b (i :: inputs))
      with (run modRequired path (step modRequired path b i) inputs).
    destruct (IH (step modRequired path b i)) as (new & Hnew & Hall).
    destruct i as [e|e|].
    + exists new. split; [|exact Hall]. rewrite Hnew. f_equal.
      cbn [step]. destruct (handleDragStart _ _ _). reflexivity.
    + exists new. split; [|exact Hall]. rewrite Hnew, step_Move_upserts.
      reflexivity.
    + rewrite step_End_upserts in Hnew.
      destruct (IDragData.isDragging (dragData b)) eqn:Hd.
      * rewrite handleDragEnd_active in Hnew by exact Hd. cbn [snd] in Hnew.
        eexists (_ :: new). split.
        -- rewrite Hnew, <- app_assoc. reflexivity.
        -- constructor; [|exact Hall]. split; [reflexivity|].
           destruct (IDragData.vertical (dragData b));
             [right|left]; eexists; reflexivity.
      * rewrite handleDragEnd_inactive in Hnew by exact Hd. cbn [snd] in Hnew.
        exists new. split; [|exact Hall]. rewrite Hnew, app_nil_r. reflexivity.
Qed.

(** ** Percentages stay in range *)

(** X7: a move during a drag, with the pointer position known, sets the
    percentage of the locked axis to the sum of the displayed percentage
    and the pointer's displacement, clamped: 0 if the sum is below 0, 100
    if it is above 100, the sum itself otherwise, so a number from 0 to
    100; the drag cannot take the position past either edge.  The other
    percentage is written back as it was read.  When the sum is NaN, or
    the other percentage is not a number, the value is not a position and
    the displayed position stays as it was. *)
Theorem move_keeps_percent_clamped
    (e : MTEvent) (p : Point) (d : IDragData.t) (style : string)
    (Hd : IDragData.isDragging d = true)
    (Hp : getMousePos e = Some p) :
  let parts := map parseFloat (split " " style) in
  let img := target_of e in
  let sum :=
    if IDragData.vertical d
    then add (ToNumber (element 1 parts))
             (mul (div (sub (ToNumber (IDragData.y d)) (clientY p))
                       (of_Z (clientHeight img))) (of_Z 100))
    else add (ToNumber (element 0 parts))
             (mul (div (sub (ToNumber (IDragData.x d)) (clientX p))
                       (of_Z (clientWidth img))) (of_Z 100)) in
  (sum = NaN -> snd (handleDragMove e d style) = style)
  /\ (sum <> NaN ->
      let v := spec_clamp_percent sum in
      le (of_Z 0) v = true /\ le v (of_Z 100) = true
      /\ snd (handleDragMove e d style)
         = if IDragData.vertical d
           then (if css_percentage (element 0 parts)
                 then objectPosition (element 0 parts) (num v) else style)
           else (if css_percentage (element 1 parts)
                 then objectPosition (num v) (element 1 parts) else style)).
Proof.
  intros parts img sum.
  assert (Hmove : snd (handleDragMove e d style)
                  = if IDragData.vertical d
                    then assign_objectPosition style (element 0 parts)
                           (num (clamp (num sum) (of_Z 0) (of_Z 100)))
                    else assign_objectPosition style
                           (num (clamp (num sum) (of_Z 0) (of_Z 100)))
                           (element 1 parts)).
  { unfold handleDragMove. rewrite Hd, Hp. cbn [negb]. fold parts img.
    subst sum. destruct (IDragData.vertical d); reflexivity. }
  rewrite Hmove. split.
  - intros ->. rewrite clamp_NaN. unfold assign_objectPosition.
    cbn [css_percentage NaN]. rewrite andb_false_r.
    destruct (IDragData.vertical d); reflexivity.
  - intros Hsum v.
    assert (Hr : le (of_Z 0) v = true /\ le v (of_Z 100) = true).
    { subst v. rewrite <- clamp_spec_percent by exact Hsum.
      apply clamp_range; try exact Hsum; try discriminate. reflexivity. }
    split; [apply Hr|]. split; [apply Hr|].
    rewrite clamp_spec_percent by exact Hsum. fold v.
    unfold assign_objectPosition.
    rewrite (le_0_100_css v (proj1 Hr) (proj2 Hr)).
    rewrite andb_true_r. cbn [andb]. reflexivity.
Qed.

Lemma move_keeps_percent_clamped_witness :
  snd (handleDragMove
         (MouseEvent no_keys (point 100 80) (image 400 200 800 600))
         (dragging_from 100 100 true) "50% 50%")
  = "50% 60%".
Proof.
  exact (proj2 (proj2 (proj2 (move_keeps_percent_clamped
           (MouseEvent no_keys (point 100 80) (image 400 200 800 600))
           (point 100 80) (dragging_from 100 100 true) "50% 50%"
           eq_refl eq_refl) ltac:(vm_compute; discriminate)))).
Defined.

(** X8: of a touch event only the first touch point counts: a touch move
    does what a mouse move at that point does, and a touch start what a
    mouse start at that point does when no modifier key is required. *)
Theorem touch_acts_at_first_point :
  forall keys keys' t rest target d style modRequired,
    handleDragMove (TouchEvent keys (t :: rest) target) d style
    = handleDragMove (MouseEvent keys' t target) d style
    /\ handleDragStart (TouchEvent keys (t :: rest) target) d modRequired
       = handleDragStart (MouseEvent keys' t target) d mod_none.
Proof.
  intros. split.
  - reflexivity.
  - unfold handleDragStart. cbn [instanceof_MouseEvent isModPressed negb].
    rewrite andb_false_r. reflexivity.
Qed.

(** X10: whatever position the front matter gives, NaN apart, the banner
    is created at percentages between 0 and 100 on both axes. *)
Theorem initial_percentages_in_range
    (bannerData : IBannerMetadata.t)
    (Hx : forall c, IBannerMetadata.x bannerData = Some c ->
                    well_formed c = true /\ c <> NaN)
    (Hy : forall c, IBannerMetadata.y bannerData = Some c ->
                    well_formed c = true /\ c <> NaN) :
  exists px py,
    between 0 100 px = true /\ between 0 100 py = true
    /\ img_objectPosition (getBannerElements bannerData)
       = objectPosition (num px) (num py).
Proof.
  assert (Hdef : forall v,
            (forall c, v = Some c -> well_formed c = true /\ c <> NaN) ->
            between 0 100
              (mul (clamp (num (default_to v one_half)) (of_Z 0) (of_Z 1))
                   (of_Z 100)) = true).
  { intros [c|] H; cbn [default_to]; [|reflexivity].
    destruct (H c eq_refl). now apply percent_of_clamped. }
  pose proof (Hdef _ Hx) as Hpx. pose proof (Hdef _ Hy) as Hpy.
  unfold getBannerElements. cbn [img_objectPosition].
  eexists. eexists. split; [exact Hpx|split; [exact Hpy|]].
  apply assign_objectPosition_valid; eapply between_css; eassumption.
Qed.

Lemma initial_percentages_in_range_witness :
  exists px py,
    between 0 100 px = true /\ between 0 100 py = true
    /\ img_objectPosition
         (getBannerElements
            (IBannerMetadata.mk "banner.png"
                                (Some (of_decimal false 333 (-3))) None false))
       = objectPosition (num px) (num py).
Proof.
  apply (initial_percentages_in_range
           (IBannerMetadata.mk "banner.png"
                               (Some (of_decimal false 333 (-3))) None false)).
  - intros c H. injection H as <-. split; [vm_compute; reflexivity|discriminate].
  - intros c H. discriminate.
Defined.

(** X11: once the release has been handled, moving over the image does
    nothing until the next accepted start: the position stays where the
    drag left it and no call is added to the one the release made. *)
Theorem moves_after_release_do_nothing :
  forall modRequired path b ms,
    run modRequired path b (End :: map Move ms) = step modRequired path b End.
Proof.
  intros modRequired path b ms.
  change (run modRequired path b (End :: map Move ms))
    with (run modRequired path (step modRequired path b End) (map Move ms)).
  apply run_moves_inactive, step_End_isDragging.
Qed.
